(** * Beeftext: update manager and global accessors

    A shallow embedding of [UpdateManager.cpp] (the orchestrator that schedules
    the periodic check for updates) and of [BeeftextGlobals.cpp] (the global
    clipboard manager accessor and the path helpers), followed by the
    properties of these two files. *)

From Stdlib Require Import ZArith List String Bool Lia Permutation.
Import ListNotations.
Local Open Scope Z_scope.

(** ** Machine integers *)

(** Two's complement wrap-around of an integer to [bits] bits. *)
Definition wrap (bits x : Z) : Z :=
  (x + 2 ^ (bits - 1)) mod 2 ^ bits - 2 ^ (bits - 1).

(** [int] and [qint64] as the compiler has them. *)
Definition to_int (x : Z) : Z := wrap 32 x.
Definition to_qint64 (x : Z) : Z := wrap 64 x.

Definition int_mul (a b : Z) : Z := to_int (a * b).
Definition qint64_add (a b : Z) : Z := to_qint64 (a + b).
Definition qint64_sub (a b : Z) : Z := to_qint64 (a - b).

(** [qMax<qint64>(a, b)]: [(a < b) ? b : a]. *)
Definition qMax (a b : Z) : Z := if a <? b then b else a.

(** ** Qt value types *)

(** A [QDateTime] is null or a number of milliseconds since the epoch. *)
Definition QDateTime : Type := option Z.

Definition isNull (d : QDateTime) : bool :=
  match d with None => true | Some _ => false end.

(** [d.addMSecs(ms)]; a null date-time stays null. *)
Definition addMSecs (d : QDateTime) (ms : Z) : QDateTime :=
  match d with
  | None => None
  | Some t => Some (qint64_add t ms)
  end.

(** [d.msecsTo(other)]; 0 when either side is not a valid date-time. *)
Definition msecsTo (d other : QDateTime) : Z :=
  match d, other with
  | Some t, Some u => qint64_sub u t
  | _, _ => 0
  end.

(** Date-times far enough from the ends of [qint64] for the arithmetic of the
    schedule not to wrap. *)
Definition in_range (t : Z) : Prop := - 2 ^ 61 <= t <= 2 ^ 61.

(** [QString::isEmpty]. *)
Definition isEmpty (s : string) : bool :=
  match s with EmptyString => true | String _ _ => false end.

(** ** The preferences manager, as far as the two files use it *)

Record PreferencesManager : Type := mkPrefs {
  autoCheckForUpdates : bool;
  lastUpdateCheckDateTime : QDateTime;
  useCustomBackupLocation : bool;
  customBackupLocation : string
}.

Definition with_lastUpdateCheckDateTime (d : QDateTime) (p : PreferencesManager)
  : PreferencesManager :=
  {| autoCheckForUpdates := autoCheckForUpdates p;
     lastUpdateCheckDateTime := d;
     useCustomBackupLocation := useCustomBackupLocation p;
     customBackupLocation := customBackupLocation p |}.

Definition with_autoCheckForUpdates (b : bool) (p : PreferencesManager)
  : PreferencesManager :=
  {| autoCheckForUpdates := b;
     lastUpdateCheckDateTime := lastUpdateCheckDateTime p;
     useCustomBackupLocation := useCustomBackupLocation p;
     customBackupLocation := customBackupLocation p |}.

(** * UpdateManager.cpp *)

Module UpdateManager.

(** ** Constants of the anonymous namespace *)

(** Delay for check for update at launch in milliseconds. *)
Definition kLaunchCheckDelayMs : Z := to_qint64 1000.

(** The interval for checking for updates in milliseconds. The product
    [1000 * 60 * 60 * 24] is evaluated in [int] and then converted. *)
Definition kUpdateCheckIntervalMs : Z :=
  to_qint64 (int_mul (int_mul (int_mul 1000 60) 60) 24).

(** ** Objects *)

(** The single-shot timer member [timer_]. *)
Record QTimer : Type := mkTimer {
  singleShot : bool;
  isActive : bool;
  interval : Z
}.

(** A default-constructed [QTimer]. *)
Definition QTimer_new : QTimer :=
  {| singleShot := false; isActive := false; interval := 0 |}.

(** An [UpdateCheckWorker] object and the [QThread] it was moved to, both
    named by their allocation number. *)
Record Worker : Type := mkWorker {
  wid : nat;
  wthread : nat
}.

Definition Worker_eqb (a b : Worker) : bool :=
  Nat.eqb (wid a) (wid b) && Nat.eqb (wthread a) (wthread b).

Record LatestVersionInfo : Type := mkInfo {
  versionMajor : Z;
  versionMinor : Z
}.

(** [SpLatestVersionInfo], a shared pointer: [None] is the null pointer. *)
Definition SpLatestVersionInfo : Type := option LatestVersionInfo.

(** ** Observable effects *)

(** The signals of [UpdateManager]. *)
Inductive Signal : Type :=
| startedUpdateCheck
| finishedUpdateCheck
| updateIsAvailable (info : LatestVersionInfo)
| noUpdateIsAvailable
| updateCheckFailed.

(** The [connect] calls of the two functions that make connections. *)
Inductive Connection : Type :=
| timeout_to_checkForUpdate
| autoCheckForUpdatesChanged_to_onAutoCheckForUpdateChanged
| started_to_run (t w : nat)
| finished_to_onWorkerFinished (w : nat)
| updateIsAvailable_to_onWorkerUpdateIsAvailable (w : nat)
| noUpdateIsAvailable_to_onWorkerNoUpdateIsAvailable (w : nat)
| error_to_onWorkerError (w : nat).

(** Everything a member function does to the world outside its locals, in the
    order in which it does it. *)
Inductive Event : Type :=
| Emit (sig : Signal)
| TimerSetSingleShot (b : bool)
| TimerStop
| TimerStart (ms : Z)
| Connect (c : Connection)
| NewThread (t : nat)
| NewWorker (w : nat)
| MoveToThread (w t : nat)
| ThreadStart (t : nat)
| ThreadQuit (t : nat)
| ThreadWait (t : nat)
| DeleteWorker (w : nat)
| ThreadDeleteLater (t : nat)
| SetLastUpdateCheckDateTime (d : QDateTime)
| DebugLogAddInfo (major minor : Z)
| UpdateDialogExec (info : LatestVersionInfo).

(** ** The state the member functions act on *)

Record World : Type := mkWorld {
  timer_ : QTimer;
  prefs : PreferencesManager;
  workers : list Worker;        (* live worker objects, newest first *)
  deferred : list nat;          (* thread objects handed to deleteLater *)
  next_obj : nat;               (* allocation counter of [new] *)
  trace : list Event            (* effects so far, oldest first *)
}.

Definition set_timer (t : QTimer) (w : World) : World :=
  {| timer_ := t; prefs := prefs w; workers := workers w;
     deferred := deferred w; next_obj := next_obj w; trace := trace w |}.

Definition set_prefs (p : PreferencesManager) (w : World) : World :=
  {| timer_ := timer_ w; prefs := p; workers := workers w;
     deferred := deferred w; next_obj := next_obj w; trace := trace w |}.

Definition set_workers (l : list Worker) (w : World) : World :=
  {| timer_ := timer_ w; prefs := prefs w; workers := l;
     deferred := deferred w; next_obj := next_obj w; trace := trace w |}.

Definition set_deferred (l : list nat) (w : World) : World :=
  {| timer_ := timer_ w; prefs := prefs w; workers := workers w;
     deferred := l; next_obj := next_obj w; trace := trace w |}.

Definition set_next_obj (n : nat) (w : World) : World :=
  {| timer_ := timer_ w; prefs := prefs w; workers := workers w;
     deferred := deferred w; next_obj := n; trace := trace w |}.

Definition record (e : Event) (w : World) : World :=
  {| timer_ := timer_ w; prefs := prefs w; workers := workers w;
     deferred := deferred w; next_obj := next_obj w;
     trace := trace w ++ [e] |}.

(** ** A state and exception monad for the member functions *)

(** A member function returns normally with a value, or leaves by an
    [xmilib::Exception]; either way the world is the one reached so far. *)
Inductive Result (A : Type) : Type :=
| Ok (a : A) (w : World)
| Throw (msg : string) (w : World).

Arguments Ok {A} a w.
Arguments Throw {A} msg w.

Definition M (A : Type) : Type := World -> Result A.

Definition ret {A : Type} (a : A) : M A := fun w => Ok a w.

Definition bind {A B : Type} (c : M A) (k : A -> M B) : M B :=
  fun w =>
    match c w with
    | Ok a w' => k a w'
    | Throw msg w' => Throw msg w'
    end.

Definition throw {A : Type} (msg : string) : M A := fun w => Throw msg w.

Definition effect (e : Event) (f : World -> World) : M unit :=
  fun w => Ok tt (record e (f w)).

Definition world_of {A : Type} (r : Result A) : World :=
  match r with Ok _ w => w | Throw _ w => w end.

Definition returns {A : Type} (r : Result A) : bool :=
  match r with Ok _ _ => true | Throw _ _ => false end.

Declare Scope upd_scope.
Delimit Scope upd_scope with upd.
Notation "x <- c ;; k" := (bind c (fun x => k))
  (at level 61, c at next level, right associativity) : upd_scope.
Notation "c ;; k" := (bind c (fun _ => k))
  (at level 61, right associativity) : upd_scope.
Local Open Scope upd_scope.

(** ** Primitive effects *)

Definition emit (sig : Signal) : M unit := effect (Emit sig) (fun w => w).

(** [timer_.setSingleShot(b)] *)
Definition timer_setSingleShot (b : bool) : M unit :=
  effect (TimerSetSingleShot b)
    (fun w => set_timer {| singleShot := b; isActive := isActive (timer_ w);
                           interval := interval (timer_ w) |} w).

(** [timer_.stop()] *)
Definition timer_stop : M unit :=
  effect TimerStop
    (fun w => set_timer {| singleShot := singleShot (timer_ w); isActive := false;
                           interval := interval (timer_ w) |} w).

(** [timer_.start(ms)]: the parameter of [QTimer::start] is an [int], so the
    [qint64] argument is narrowed on the way in. *)
Definition timer_start (ms : Z) : M unit :=
  let msec := to_int ms in
  effect (TimerStart msec)
    (fun w => set_timer {| singleShot := singleShot (timer_ w); isActive := true;
                           interval := msec |} w).

Definition connect (c : Connection) : M unit := effect (Connect c) (fun w => w).

(** [new QThread] *)
Definition new_QThread : M nat :=
  fun w => Ok (next_obj w) (record (NewThread (next_obj w)) (set_next_obj (S (next_obj w)) w)).

(** [new UpdateCheckWorker] *)
Definition new_UpdateCheckWorker : M nat :=
  fun w => Ok (next_obj w) (record (NewWorker (next_obj w)) (set_next_obj (S (next_obj w)) w)).

(** [worker->moveToThread(thread)]: from here on the worker knows its thread. *)
Definition moveToThread (wk t : nat) : M unit :=
  effect (MoveToThread wk t)
    (fun w => set_workers ({| wid := wk; wthread := t |} :: workers w) w).

Definition thread_start (t : nat) : M unit := effect (ThreadStart t) (fun w => w).
Definition thread_quit (t : nat) : M unit := effect (ThreadQuit t) (fun w => w).
Definition thread_wait (t : nat) : M unit := effect (ThreadWait t) (fun w => w).

(** [delete worker] *)
Definition delete_worker (wk : Worker) : M unit :=
  effect (DeleteWorker (wid wk))
    (fun w => set_workers (filter (fun x => negb (Worker_eqb x wk)) (workers w)) w).

(** [thread->deleteLater()] *)
Definition thread_deleteLater (t : nat) : M unit :=
  effect (ThreadDeleteLater t) (fun w => set_deferred (t :: deferred w) w).

(** [PreferencesManager::instance().lastUpdateCheckDateTime()] *)
Definition get_lastUpdateCheckDateTime : M QDateTime :=
  fun w => Ok (lastUpdateCheckDateTime (prefs w)) w.

(** [PreferencesManager::instance().autoCheckForUpdates()] *)
Definition get_autoCheckForUpdates : M bool :=
  fun w => Ok (autoCheckForUpdates (prefs w)) w.

(** [PreferencesManager::instance().setLastUpdateCheckDateTime(d)] *)
Definition setLastUpdateCheckDateTime (d : QDateTime) : M unit :=
  effect (SetLastUpdateCheckDateTime d)
    (fun w => set_prefs (with_lastUpdateCheckDateTime d (prefs w)) w).

(** [globals::debugLog().addInfo(...)] with the version numbers of the message. *)
Definition debugLog_addInfo (major minor : Z) : M unit :=
  effect (DebugLogAddInfo major minor) (fun w => w).

(** [UpdateDialog(info).exec()] *)
Definition updateDialog_exec (info : LatestVersionInfo) : M unit :=
  effect (UpdateDialogExec info) (fun w => w).

(** ** The member functions *)

(** [UpdateManager::startUpdateCheckWorker] *)
Definition startUpdateCheckWorker : M unit :=
  emit startedUpdateCheck ;;
  thread <- new_QThread ;;
  worker <- new_UpdateCheckWorker ;;
  moveToThread worker thread ;;
  connect (started_to_run thread worker) ;;
  connect (finished_to_onWorkerFinished worker) ;;
  connect (updateIsAvailable_to_onWorkerUpdateIsAvailable worker) ;;
  connect (noUpdateIsAvailable_to_onWorkerNoUpdateIsAvailable worker) ;;
  connect (error_to_onWorkerError worker) ;;
  thread_start thread.

(** [UpdateManager::checkForUpdate] *)
Definition checkForUpdate : M unit :=
  timer_stop ;;
  startUpdateCheckWorker.

(** The delay computed by [onAutoCheckForUpdateChanged] at time [now]. *)
Definition msSecsToNextCheck (now : Z) (lastCheckDateTime : QDateTime) : Z :=
  if isNull lastCheckDateTime then kLaunchCheckDelayMs
  else qMax kLaunchCheckDelayMs
         (msecsTo (Some now) (addMSecs lastCheckDateTime kUpdateCheckIntervalMs)).

(** [UpdateManager::onAutoCheckForUpdateChanged]; [now] is what
    [QDateTime::currentDateTime()] returns. *)
Definition onAutoCheckForUpdateChanged (enabled : bool) (now : Z) : M unit :=
  timer_stop ;;
  if negb enabled then ret tt
  else
    lastCheckDateTime <- get_lastUpdateCheckDateTime ;;
    timer_start (msSecsToNextCheck now lastCheckDateTime).

(** [UpdateManager::onWorkerFinished]; [sender] is the result of the
    [dynamic_cast] of [this->sender()], [now] is the current date-time. *)
Definition onWorkerFinished (sender : option Worker) (now : Z) : M unit :=
  match sender with
  | None => throw "An Internal error occurred while checking for updates."
  | Some worker =>
      let thread := wthread worker in
      thread_quit thread ;;
      thread_wait thread ;;
      delete_worker worker ;;
      thread_deleteLater thread ;;
      emit finishedUpdateCheck ;;
      setLastUpdateCheckDateTime (Some now) ;;
      timer_start kUpdateCheckIntervalMs
  end.

(** [UpdateManager::onWorkerUpdateIsAvailable]; the exception message is
    ["%1(): latestVersionInfo parameter is null."] with the function's name. *)
Definition onWorkerUpdateIsAvailable (latestVersionInfo : SpLatestVersionInfo) : M unit :=
  match latestVersionInfo with
  | None => throw "onWorkerUpdateIsAvailable(): latestVersionInfo parameter is null."
  | Some info =>
      debugLog_addInfo (versionMajor info) (versionMinor info) ;;
      emit (updateIsAvailable info) ;;
      updateDialog_exec info
  end.

(** [UpdateManager::onWorkerNoUpdateIsAvailable] *)
Definition onWorkerNoUpdateIsAvailable : M unit :=
  emit noUpdateIsAvailable.

(** [UpdateManager::onWorkerError]: the parameter is not used. *)
Definition onWorkerError (error : string) : M unit :=
  emit updateCheckFailed.

(** The world in which the constructor body starts: the members are
    default-constructed, nothing has happened yet. *)
Definition World_new (p : PreferencesManager) : World :=
  {| timer_ := QTimer_new; prefs := p; workers := []; deferred := [];
     next_obj := 0%nat; trace := [] |}.

(** [UpdateManager::UpdateManager] *)
Definition UpdateManager_ctor (now : Z) : M unit :=
  timer_setSingleShot true ;;
  connect timeout_to_checkForUpdate ;;
  connect autoCheckForUpdatesChanged_to_onAutoCheckForUpdateChanged ;;
  enabled <- get_autoCheckForUpdates ;;
  onAutoCheckForUpdateChanged enabled now.

(** Preferences of a first launch: the automatic check is on and no check has
    been recorded. *)
Definition first_launch_prefs : PreferencesManager :=
  {| autoCheckForUpdates := true; lastUpdateCheckDateTime := None;
     useCustomBackupLocation := false; customBackupLocation := EmptyString |}.

(** Preferences with the automatic check on and a last check at time 0. *)
Definition checked_at_0_prefs : PreferencesManager :=
  {| autoCheckForUpdates := true; lastUpdateCheckDateTime := Some 0;
     useCustomBackupLocation := false; customBackupLocation := EmptyString |}.

(** Preferences whose last check lies about 48.7 days after time 0, as after
    the system clock has been set back. *)
Definition last_check_ahead_prefs : PreferencesManager :=
  {| autoCheckForUpdates := true; lastUpdateCheckDateTime := Some 4208567301;
     useCustomBackupLocation := false; customBackupLocation := EmptyString |}.

(** ** Sequences of calls *)

(** The preference-change handler called once per delivered value, each call
    at its own time. *)
Fixpoint deliver_changes (l : list (bool * Z)) : M unit :=
  match l with
  | [] => ret tt
  | (enabled, now) :: l' =>
      onAutoCheckForUpdateChanged enabled now ;; deliver_changes l'
  end.

(** The events a computation adds to the trace of the world it starts in. *)
Definition emitted_by {A : Type} (c : M A) (w : World) : list Event :=
  skipn (List.length (trace w)) (trace (world_of (c w))).

(** ** The worker, seen from the manager *)

(** The three results of a check. *)
Inductive Outcome : Type :=
| Available (info : LatestVersionInfo)
| NotAvailable
| Failed (error : string).

(** The signals of [UpdateCheckWorker] that [startUpdateCheckWorker] connects. *)
Inductive WorkerSignal : Type :=
| sig_finished
| sig_updateIsAvailable (info : SpLatestVersionInfo)
| sig_noUpdateIsAvailable
| sig_error (error : string).

Definition outcome_signal (o : Outcome) : WorkerSignal :=
  match o with
  | Available info => sig_updateIsAvailable (Some info)
  | NotAvailable => sig_noUpdateIsAvailable
  | Failed error => sig_error error
  end.


(** Modelled from the spec: [UpdateCheckWorker::run], which is not part of the
    two files. The worker "runs to completion on its own thread, exactly once,
    and reports exactly one of three terminal outcomes before signaling
    completion". *)
Definition worker_run (o : Outcome) : list WorkerSignal :=
  [outcome_signal o; sig_finished].

(** The slot each signal of worker [wk] is connected to by
    [startUpdateCheckWorker]; [now] is the time at which the slot runs. *)
Definition dispatch (wk : Worker) (now : Z) (sig : WorkerSignal) : M unit :=
  match sig with
  | sig_finished => onWorkerFinished (Some wk) now
  | sig_updateIsAvailable info => onWorkerUpdateIsAvailable info
  | sig_noUpdateIsAvailable => onWorkerNoUpdateIsAvailable
  | sig_error error => onWorkerError error
  end.

Fixpoint deliver (wk : Worker) (now : Z) (sigs : list WorkerSignal) : M unit :=
  match sigs with
  | [] => ret tt
  | sig :: sigs' => dispatch wk now sig ;; deliver wk now sigs'
  end.

(** The manager's side of the end of a check: the slot of the outcome, then
    the slot of the completion. *)
Definition process_outcome (wk : Worker) (o : Outcome) (now : Z) : M unit :=
  dispatch wk now (outcome_signal o) ;;
  dispatch wk now sig_finished.

(** The worker that [startUpdateCheckWorker] creates in world [w]. *)
Definition started_worker (w : World) : Worker :=
  {| wid := S (next_obj w); wthread := next_obj w |}.

(** One whole check: the entry point, then the worker's signals. *)
Definition one_check (o : Outcome) (now : Z) : M unit :=
  fun w => (checkForUpdate ;; deliver (started_worker w) now (worker_run o)) w.

(** Modelled from the spec: the setter of the preference, which is not part of
    the two files. The preferences expose 'a boolean "auto-check enabled"
    setting with a change notification'; the constructor connects that
    notification to [onAutoCheckForUpdateChanged]. *)
Definition setAutoCheckForUpdates (value : bool) (now : Z) : M unit :=
  fun w =>
    onAutoCheckForUpdateChanged value now
      (set_prefs (with_autoCheckForUpdates value (prefs w)) w).

(** The preference is switched off between the start of a check and its
    completion. *)
Definition disable_in_flight (o : Outcome) (t_off t_done : Z) : M unit :=
  fun w =>
    (checkForUpdate ;;
     setAutoCheckForUpdates false t_off ;;
     deliver (started_worker w) t_done (worker_run o)) w.

(** A run from program start: the manager is constructed at time 0 with the
    automatic check enabled and no last check recorded, the timer expires at
    1000 ms, the preference is switched off at 1500 ms and the worker reports
    that there is no update at 2000 ms. *)
Definition disabled_during_first_check : Result unit :=
  (UpdateManager_ctor 0 ;;
   disable_in_flight NotAvailable 1500 2000)
    (World_new first_launch_prefs).

(** ** Classifying events *)


Definition is_finished_notification (e : Event) : bool :=
  match e with Emit finishedUpdateCheck => true | _ => false end.





Definition count (p : Event -> bool) (l : list Event) : nat :=
  List.length (filter p l).

(** The workers deleted and the threads handed to [deleteLater] according to
    a trace, oldest first. *)
Fixpoint deleted_workers (l : list Event) : list nat :=
  match l with
  | [] => []
  | DeleteWorker wk :: l' => wk :: deleted_workers l'
  | _ :: l' => deleted_workers l'
  end.

Fixpoint deleted_later (l : list Event) : list nat :=
  match l with
  | [] => []
  | ThreadDeleteLater t :: l' => t :: deleted_later l'
  | _ :: l' => deleted_later l'
  end.

Definition is_started_notification (e : Event) : bool :=
  match e with Emit startedUpdateCheck => true | _ => false end.

Definition is_timer_event (e : Event) : bool :=
  match e with TimerStop | TimerStart _ => true | _ => false end.

(** The objects of a world are in order: every live worker and every deleted
    object was allocated before, no worker is both live and deleted or listed
    twice, and no thread belongs to two live workers, or to a live worker and
    to the threads handed to [deleteLater], or was handed over twice. *)
Definition objects_ok (w : World) : Prop :=
  Forall (fun x => (wid x < next_obj w)%nat /\ (wthread x < next_obj w)%nat)
    (workers w) /\
  Forall (fun x => (x < next_obj w)%nat) (deleted_workers (trace w)) /\
  Forall (fun x => (x < next_obj w)%nat) (deleted_later (trace w)) /\
  NoDup (map wid (workers w) ++ deleted_workers (trace w)) /\
  NoDup (map wthread (workers w) ++ deleted_later (trace w)).

(** The timer is single-shot and, while active, runs with an interval of one
    second to 24 hours. *)
Definition timer_in_order (w : World) : Prop :=
  singleShot (timer_ w) = true /\
  (isActive (timer_ w) = true -> 1000 <= interval (timer_ w) <= 86400000).

(** The recorded last check, if any, is not later than [t]. *)
Definition last_check_not_after (t : Z) (w : World) : Prop :=
  forall u, lastUpdateCheckDateTime (prefs w) = Some u -> in_range u /\ u <= t.

(** ** The manager in the event loop *)

(** What reaches the manager once it is constructed: the expiry of [timer_]
    and a direct call both run [checkForUpdate], a change of the preference
    runs [onAutoCheckForUpdateChanged], and a signal of a worker runs the slot
    it is connected to. *)
Inductive Input : Type :=
| in_timeout
| in_checkForUpdate
| in_autoCheckForUpdatesChanged (enabled : bool)
| in_worker (wk : Worker) (sig : WorkerSignal).

Definition handle (now : Z) (i : Input) : M unit :=
  match i with
  | in_timeout => checkForUpdate
  | in_checkForUpdate => checkForUpdate
  | in_autoCheckForUpdatesChanged enabled => onAutoCheckForUpdateChanged enabled now
  | in_worker wk sig => dispatch wk now sig
  end.

Definition is_live (wk : Worker) (w : World) : bool :=
  existsb (Worker_eqb wk) (workers w).

(** The timer expires only while it is active, and only a worker that has not
    been deleted sends signals. *)
Definition enabled_input (w : World) (i : Input) : bool :=
  match i with
  | in_timeout => isActive (timer_ w)
  | in_worker wk _ => is_live wk w
  | _ => true
  end.

(** The inputs that come from the timer and from the workers, as opposed to
    calls from outside and changes of the preference. *)
Definition timer_driven (i : Input) : bool :=
  match i with
  | in_timeout | in_worker _ _ => true
  | in_checkForUpdate | in_autoCheckForUpdatesChanged _ => false
  end.

(** The clock does not run backwards: the times of the inputs of [l] do not
    decrease, starting from [t], and stay in the range of [in_range]. *)
Fixpoint clock_from (t : Z) (l : list (Z * Input)) : bool :=
  match l with
  | [] => true
  | (now, _) :: l' => (t <=? now) && (now <=? 2 ^ 61) && clock_from now l'
  end.

(** The inputs of [l], each with the time at which its slot runs, handled one
    after the other. An exception that leaves a slot ends the run. *)
Fixpoint run (l : list (Z * Input)) (w : World) : option World :=
  match l with
  | [] => Some w
  | (now, i) :: l' =>
      if enabled_input w i then
        match handle now i w with
        | Ok _ w' => run l' w'
        | Throw _ _ => None
        end
      else None
  end.

(** Construction of the manager at time [now] with preferences [p], followed
    by the inputs of [l]. *)
Definition launch (p : PreferencesManager) (now : Z) (l : list (Z * Input))
  : option World :=
  match UpdateManager_ctor now (World_new p) with
  | Ok _ w => run l w
  | Throw _ _ => None
  end.

(** A first launch: the timer expires after a second, a second check is
    requested by hand while the first one runs, the first worker fails and
    finishes, the preference is switched off and on again, and the second
    worker finds version 9.1 and finishes. *)
Definition busy_first_day : list (Z * Input) :=
  [(1000, in_timeout);
   (1200, in_checkForUpdate);
   (1900, in_worker {| wid := 1; wthread := 0 |} (sig_error "timeout"));
   (2000, in_worker {| wid := 1; wthread := 0 |} sig_finished);
   (2500, in_autoCheckForUpdatesChanged false);
   (2600, in_autoCheckForUpdatesChanged true);
   (3000, in_worker {| wid := 3; wthread := 2 |}
            (sig_updateIsAvailable (Some {| versionMajor := 9; versionMinor := 1 |})));
   (3100, in_worker {| wid := 3; wthread := 2 |} sig_finished)].

(** The first day without interference: the timer expires, the worker reports
    that there is no update and finishes, and a day later the timer expires
    again. *)
Definition quiet_two_days : list (Z * Input) :=
  [(1000, in_timeout);
   (1800, in_worker {| wid := 1; wthread := 0 |} sig_noUpdateIsAvailable);
   (1900, in_worker {| wid := 1; wthread := 0 |} sig_finished);
   (86401900, in_timeout)].

End UpdateManager.

(** * BeeftextGlobals.cpp *)

Module Globals.

(** ** The clipboard manager *)

(** The file-scope variable [clipboardManagerPtr] together with the number of
    [ClipboardManagerDefault] objects constructed so far; an object is named
    by its construction number. *)
Record Statics : Type := mkStatics {
  clipboardManagerPtr : option nat;
  constructed : nat
}.

(** The state at program start: [clipboardManagerPtr = nullptr]. *)
Definition Statics_init : Statics :=
  {| clipboardManagerPtr := None; constructed := 0 |}.

(** [globals::clipboardManager]: the object referred to by the returned
    reference, and the statics after the call. *)
Definition clipboardManager (g : Statics) : nat * Statics :=
  match clipboardManagerPtr g with
  | None =>
      let obj := constructed g in
      (obj, {| clipboardManagerPtr := Some obj; constructed := S (constructed g) |})
  | Some obj => (obj, g)
  end.

(** [n] calls in a row: the objects returned and the statics at the end. *)
Fixpoint clipboardManager_calls (n : nat) (g : Statics) : list nat * Statics :=
  match n with
  | O => ([], g)
  | S n' =>
      let (obj, g1) := clipboardManager g in
      let (objs, g2) := clipboardManager_calls n' g1 in
      (obj :: objs, g2)
  end.

(** ** Paths *)

(** What the path helpers read from their surroundings: the two mode tests of
    [BeeftextUtils], the two Qt locations, and the preferences. *)
Record Env : Type := mkEnv {
  isInPortableMode : bool;
  usePortableAppsFolderLayout : bool;
  applicationDirPath : string;
  appLocalDataLocation : string;
  preferences : PreferencesManager
}.

Section Paths.

(** [QDir(dir).absoluteFilePath(fileName)] *)
Variable absoluteFilePath : string -> string -> string.

(** [globals::portableModeDataFolderPath] *)
Definition portableModeDataFolderPath (env : Env) : string :=
  let appDir := applicationDirPath env in
  if usePortableAppsFolderLayout env
  then absoluteFilePath appDir "../../Data/settings"
  else absoluteFilePath appDir "Data".

(** [globals::appDataDir] *)
Definition appDataDir (env : Env) : string :=
  if isInPortableMode env then portableModeDataFolderPath env
  else appLocalDataLocation env.

(** [globals::defaultBackupFolderPath] *)
Definition defaultBackupFolderPath (env : Env) : string :=
  absoluteFilePath (appDataDir env) "Backup".

(** [globals::backupFolderPath] *)
Definition backupFolderPath (env : Env) : string :=
  let prefs := preferences env in
  let defaultPath := defaultBackupFolderPath env in
  if negb (useCustomBackupLocation prefs) then defaultPath
  else
    let customPath := customBackupLocation (preferences env) in
    if isEmpty customPath then defaultPath else customPath.

(** [globals::translationRootFolderPath] *)
Definition translationRootFolderPath (env : Env) : string :=
  absoluteFilePath (applicationDirPath env) "Translations".

(** [globals::userTranslationRootFolderPath] *)
Definition userTranslationRootFolderPath (env : Env) : string :=
  absoluteFilePath (appDataDir env) "Translations".

(** [globals::logFilePath] *)
Definition logFilePath (env : Env) : string :=
  absoluteFilePath (appDataDir env) "log.txt".

(** [globals::portableModeSettingsFilePath] *)
Definition portableModeSettingsFilePath (env : Env) : string :=
  absoluteFilePath (portableModeDataFolderPath env) "Settings.ini".

(** [globals::sensitiveApplicationsFilePath] *)
Definition sensitiveApplicationsFilePath (env : Env) : string :=
  absoluteFilePath (appDataDir env) "sensitiveApps.json".

(** [globals::emojiExcludedAppsFilePath] *)
Definition emojiExcludedAppsFilePath (env : Env) : string :=
  absoluteFilePath (appDataDir env) "emojiExcludedApps.json".

(** The paths that are computed from the data directory, in the order of the
    file. *)
Definition dataPaths (env : Env) : list string :=
  [userTranslationRootFolderPath env; logFilePath env;
   defaultBackupFolderPath env; sensitiveApplicationsFilePath env;
   emojiExcludedAppsFilePath env].

End Paths.

(** An installed (not portable) application with its data directory in the
    user's local application data, and the two backup preferences. *)
Definition installed_env (useCustom : bool) (custom : string) : Env :=
  {| isInPortableMode := false; usePortableAppsFolderLayout := false;
     applicationDirPath := "C:/Program Files/Beeftext";
     appLocalDataLocation := "C:/Users/u/AppData/Local/Beeftext";
     preferences :=
       {| autoCheckForUpdates := true; lastUpdateCheckDateTime := None;
          useCustomBackupLocation := useCustom;
          customBackupLocation := custom |} |}.

(** A portable application on a removable drive, in the plain layout or in
    the PortableApps layout. *)
Definition portable_env (portableApps : bool) (localData : string) : Env :=
  {| isInPortableMode := true; usePortableAppsFolderLayout := portableApps;
     applicationDirPath := "E:/Beeftext/App/Beeftext";
     appLocalDataLocation := localData;
     preferences :=
       {| autoCheckForUpdates := true; lastUpdateCheckDateTime := None;
          useCustomBackupLocation := false;
          customBackupLocation := EmptyString |} |}.

(** A directory path followed by a separator and a file name. This is what
    [absoluteFilePath] gives only when the directory path is absolute and
    clean (no [.] or [..] component, no doubled or trailing separator) and the
    file name is relative; [QDir] cleans its own path otherwise. It is used
    for examples with such directories and is no part of the model. *)
Definition joinPath (dir fileName : string) : string :=
  (dir ++ "/" ++ fileName)%string.

End Globals.

(** * Properties of the update manager *)

Import UpdateManager.
Local Open Scope upd_scope.

(** ** Arithmetic of the machine integers *)

Lemma to_qint64_id (x : Z) :
  - 2 ^ 63 <= x < 2 ^ 63 -> to_qint64 x = x.
Proof.
  intros H. unfold to_qint64, wrap.
  change (2 ^ (64 - 1)) with (2 ^ 63). change (2 ^ 64) with (2 * 2 ^ 63).
  rewrite Z.mod_small; lia.
Qed.

Lemma to_int_id (x : Z) : - 2 ^ 31 <= x < 2 ^ 31 -> to_int x = x.
Proof.
  intros H. unfold to_int, wrap.
  change (2 ^ (32 - 1)) with (2 ^ 31). change (2 ^ 32) with (2 * 2 ^ 31).
  rewrite Z.mod_small; lia.
Qed.

Lemma qMax_max (a b : Z) : qMax a b = Z.max a b.
Proof.
  unfold qMax. destruct (Z.ltb_spec a b); lia.
Qed.

Lemma qMax_lower (a b : Z) : a <= qMax a b.
Proof. rewrite qMax_max. lia. Qed.

Lemma kLaunchCheckDelayMs_value : kLaunchCheckDelayMs = 1000.
Proof. reflexivity. Qed.

(** The product of the four factors does not overflow [int]. *)
Lemma kUpdateCheckIntervalMs_value : kUpdateCheckIntervalMs = 86400000.
Proof. reflexivity. Qed.

Lemma msSecsToNextCheck_null (now : Z) :
  msSecsToNextCheck now None = 1000.
Proof. reflexivity. Qed.

Lemma msSecsToNextCheck_lower (now : Z) (d : QDateTime) :
  1000 <= msSecsToNextCheck now d.
Proof.
  unfold msSecsToNextCheck. destruct d as [t|]; cbn [isNull].
  - rewrite <- kLaunchCheckDelayMs_value at 1. apply qMax_lower.
  - rewrite kLaunchCheckDelayMs_value. lia.
Qed.

Lemma msSecsToNextCheck_in_range (now t : Z) :
  in_range now -> in_range t ->
  msSecsToNextCheck now (Some t) = Z.max 1000 (t + 86400000 - now).
Proof.
  unfold in_range. intros Hn Ht.
  unfold msSecsToNextCheck. cbn [isNull addMSecs msecsTo].
  rewrite qMax_max, kLaunchCheckDelayMs_value, kUpdateCheckIntervalMs_value.
  unfold qint64_sub, qint64_add.
  assert (E : 2 ^ 61 * 4 = 2 ^ 63) by reflexivity.
  rewrite (to_qint64_id (t + 86400000)) by lia.
  rewrite to_qint64_id by lia.
  reflexivity.
Qed.

(** ** What the handlers return *)

Lemma onAutoCheckForUpdateChanged_enabled (now : Z) (w : World) :
  onAutoCheckForUpdateChanged true now w =
  Ok tt (record (TimerStart (to_int (msSecsToNextCheck now (lastUpdateCheckDateTime (prefs w)))))
           (set_timer {| singleShot := singleShot (timer_ w); isActive := true;
                         interval := to_int (msSecsToNextCheck now (lastUpdateCheckDateTime (prefs w))) |}
              (record TimerStop w))).
Proof. reflexivity. Qed.

Lemma onAutoCheckForUpdateChanged_disabled (now : Z) (w : World) :
  onAutoCheckForUpdateChanged false now w =
  Ok tt (record TimerStop
           (set_timer {| singleShot := singleShot (timer_ w); isActive := false;
                         interval := interval (timer_ w) |} w)).
Proof. reflexivity. Qed.

(** ** Scheduling on enabling the automatic check *)

(** The delay as the timer receives it, when the time left until the last
    check plus 24 hours fits an [int]. *)
Lemma narrowed_delay_when_it_fits (now t : Z) :
  in_range now -> in_range t -> t + 86400000 - now < 2 ^ 31 ->
  to_int (msSecsToNextCheck now (Some t)) = Z.max 1000 (t + 86400000 - now) /\
  1000 <= to_int (msSecsToNextCheck now (Some t)) < 2 ^ 31.
Proof.
  intros Hn Ht Hfit. rewrite msSecsToNextCheck_in_range by assumption.
  assert (E : 2 ^ 31 = 2147483648) by reflexivity.
  rewrite to_int_id by lia. lia.
Qed.

(** C1, on the code. With a last check recorded about 48.7 days after now,
    [onAutoCheckForUpdateChanged] computes the delay 4294967301 ms as a
    [qint64], clamped from below by [qMax] as the claim says, but the timer
    takes an [int]: it is started with 5 ms, less than the launch delay of
    1000 ms. *)
Theorem auto_check_delay_narrowed :
  in_range 0 /\ in_range 4208567301 /\
  msSecsToNextCheck 0 (Some 4208567301) = Z.max 1000 (4208567301 + 86400000 - 0) /\
  msSecsToNextCheck 0 (Some 4208567301) = 4294967301 /\
  exists w',
    onAutoCheckForUpdateChanged true 0 (World_new last_check_ahead_prefs)
      = Ok tt w' /\
    isActive (timer_ w') = true /\
    interval (timer_ w') = 5 /\
    emitted_by (onAutoCheckForUpdateChanged true 0)
      (World_new last_check_ahead_prefs) = [TimerStop; TimerStart 5].
Proof.
  split; [unfold in_range; lia|]. split; [unfold in_range; lia|].
  split; [reflexivity|]. split; [reflexivity|].
  eexists. split; [reflexivity|]. repeat split.
Qed.

(** X14. When the automatic check is enabled through
    [onAutoCheckForUpdateChanged] (in any world, and in particular in the call
    the constructor makes), the timer is started with the launch delay of
    1000 ms when no last check is recorded; when one is recorded and the time
    from now to the last check plus 24 hours fits an [int], it is started with
    the larger of 1000 ms and that time, which is never below 1000 ms. *)
Theorem auto_check_delay_when_it_fits (now : Z) (w : World) :
  in_range now ->
  (forall t, lastUpdateCheckDateTime (prefs w) = Some t ->
     in_range t /\ t + 86400000 - now < 2 ^ 31) ->
  exists w',
    onAutoCheckForUpdateChanged true now w = Ok tt w' /\
    isActive (timer_ w') = true /\
    interval (timer_ w') =
      match lastUpdateCheckDateTime (prefs w) with
      | None => 1000
      | Some t => Z.max 1000 (t + 86400000 - now)
      end /\
    1000 <= interval (timer_ w') /\
    (autoCheckForUpdates (prefs w) = true ->
       exists w0,
         UpdateManager_ctor now (World_new (prefs w)) = Ok tt w0 /\
         isActive (timer_ w0) = true /\
         interval (timer_ w0) = interval (timer_ w')).
Proof.
  intros Hn Hlast. rewrite onAutoCheckForUpdateChanged_enabled.
  eexists. split; [reflexivity|]. cbn [timer_ set_timer record isActive interval].
  split; [reflexivity|].
  assert (I : to_int (msSecsToNextCheck now (lastUpdateCheckDateTime (prefs w))) =
              match lastUpdateCheckDateTime (prefs w) with
              | None => 1000
              | Some t => Z.max 1000 (t + 86400000 - now)
              end).
  { destruct (lastUpdateCheckDateTime (prefs w)) as [t|]; [|reflexivity].
    destruct (Hlast t eq_refl) as (Ht & Hfit).
    now apply narrowed_delay_when_it_fits. }
  split; [exact I|].
  split.
  - rewrite I. destruct (lastUpdateCheckDateTime (prefs w)); lia.
  - intros Hen. unfold UpdateManager_ctor, bind, get_autoCheckForUpdates.
    cbn [timer_setSingleShot connect effect record set_timer prefs World_new].
    rewrite Hen. rewrite onAutoCheckForUpdateChanged_enabled.
    eexists. split; [reflexivity|]. split; reflexivity.
Qed.

(** The last check was one hour before now: 23 hours remain, for the handler
    and for the constructor alike. *)
Lemma auto_check_delay_when_it_fits_witness :
  exists w' w0,
    onAutoCheckForUpdateChanged true 3600000 (World_new checked_at_0_prefs)
      = Ok tt w' /\
    interval (timer_ w') = 82800000 /\
    UpdateManager_ctor 3600000 (World_new checked_at_0_prefs) = Ok tt w0 /\
    interval (timer_ w0) = 82800000.
Proof.
  destruct (auto_check_delay_when_it_fits 3600000 (World_new checked_at_0_prefs))
    as (w' & E & _ & I & _ & C).
  - unfold in_range. lia.
  - intros t H. injection H as <-. unfold in_range. lia.
  - destruct (C eq_refl) as (w0 & E0 & _ & I0).
    exists w', w0.
    repeat split; [exact E | exact I | exact E0 | now rewrite I0].
Defined.

(** ** The timer follows the preference *)

Lemma deliver_changes_returns (l : list (bool * Z)) (w : World) :
  exists w', deliver_changes l w = Ok tt w'.
Proof.
  revert w. induction l as [|[enabled now] l IH]; intros w; cbn [deliver_changes].
  - now exists w.
  - unfold bind. destruct enabled.
    + rewrite onAutoCheckForUpdateChanged_enabled. apply IH.
    + rewrite onAutoCheckForUpdateChanged_disabled. apply IH.
Qed.

Lemma deliver_changes_app (l1 l2 : list (bool * Z)) (w : World) :
  deliver_changes (l1 ++ l2) w = (deliver_changes l1 ;; deliver_changes l2) w.
Proof.
  revert w. induction l1 as [|[enabled now] l1 IH]; intros w.
  - reflexivity.
  - cbn [app deliver_changes]. unfold bind in *.
    destruct (onAutoCheckForUpdateChanged enabled now w) as [[] w1|msg w1].
    + apply IH.
    + reflexivity.
Qed.

Lemma onAutoCheckForUpdateChanged_active (enabled : bool) (now : Z) (w : World) :
  exists w',
    onAutoCheckForUpdateChanged enabled now w = Ok tt w' /\
    isActive (timer_ w') = enabled.
Proof.
  destruct enabled.
  - rewrite onAutoCheckForUpdateChanged_enabled. eexists. split; reflexivity.
  - rewrite onAutoCheckForUpdateChanged_disabled. eexists. split; reflexivity.
Qed.

(** C2. Whatever values the preference-change handler has been given before,
    after it returns from the most recent one the timer is active exactly
    when that value was "enabled". The constructor starts from an inactive
    timer and leaves it active exactly when the preference is set. *)
Theorem timer_armed_iff_last_enabled
    (before : list (bool * Z)) (enabled : bool) (now : Z) (w : World) :
  (exists w',
     deliver_changes (before ++ [(enabled, now)]) w = Ok tt w' /\
     isActive (timer_ w') = enabled) /\
  isActive (timer_ (World_new (prefs w))) = false /\
  (exists w0,
     UpdateManager_ctor now (World_new (prefs w)) = Ok tt w0 /\
     isActive (timer_ w0) = autoCheckForUpdates (prefs w)).
Proof.
  split; [|split].
  - rewrite deliver_changes_app. unfold bind.
    destruct (deliver_changes_returns before w) as (w1 & ->).
    cbn [deliver_changes]. unfold bind.
    destruct (onAutoCheckForUpdateChanged_active enabled now w1) as (w2 & -> & A).
    exists w2. split; [reflexivity | exact A].
  - reflexivity.
  - unfold UpdateManager_ctor, bind, get_autoCheckForUpdates.
    cbn [timer_setSingleShot connect effect record set_timer prefs World_new].
    match goal with
    | |- context [onAutoCheckForUpdateChanged ?b ?n ?x] =>
        destruct (onAutoCheckForUpdateChanged_active b n x) as (w0 & -> & A)
    end.
    exists w0. split; [reflexivity | exact A].
Qed.

(** ** Completion of a check *)

(** Unfolds the member functions down to the worlds they produce. *)
Ltac run_handlers :=
  unfold process_outcome, dispatch, outcome_signal, onWorkerFinished,
    onWorkerUpdateIsAvailable, onWorkerNoUpdateIsAvailable, onWorkerError,
    checkForUpdate, startUpdateCheckWorker, onAutoCheckForUpdateChanged,
    bind, ret, throw, emit, timer_stop, timer_start, timer_setSingleShot,
    connect, new_QThread, new_UpdateCheckWorker, moveToThread, thread_start,
    thread_quit, thread_wait, delete_worker, thread_deleteLater,
    setLastUpdateCheckDateTime, get_lastUpdateCheckDateTime,
    debugLog_addInfo, updateDialog_exec, effect;
  cbn [negb].

(** Projections of the worlds built by the primitive effects. *)
Ltac simpl_world :=
  cbn [record set_timer set_prefs set_workers set_deferred set_next_obj
       timer_ prefs workers deferred next_obj trace
       singleShot isActive interval
       with_lastUpdateCheckDateTime lastUpdateCheckDateTime].

(** The trace after a run, written as the old trace followed by new events. *)
Ltac flatten_trace :=
  repeat rewrite <- app_assoc; cbn [app].

Lemma onWorkerFinished_identified (wk : Worker) (now : Z) (w : World) :
  exists w',
    onWorkerFinished (Some wk) now w = Ok tt w' /\
    prefs w' = with_lastUpdateCheckDateTime (Some now) (prefs w) /\
    timer_ w' = {| singleShot := singleShot (timer_ w); isActive := true;
                   interval := 86400000 |} /\
    workers w' = filter (fun x => negb (Worker_eqb x wk)) (workers w) /\
    deferred w' = wthread wk :: deferred w /\
    next_obj w' = next_obj w /\
    trace w' = trace w ++
      [ThreadQuit (wthread wk); ThreadWait (wthread wk); DeleteWorker (wid wk);
       ThreadDeleteLater (wthread wk); Emit finishedUpdateCheck;
       SetLastUpdateCheckDateTime (Some now); TimerStart 86400000].
Proof.
  run_handlers. eexists. split; [reflexivity|].
  simpl_world. repeat split. flatten_trace. reflexivity.
Qed.

(** C3. Whatever the outcome (update available, no update, error), once the
    slot of the outcome and then the slot of the completion have run at time
    [now], the recorded last check is [now] and the timer is active with an
    interval of exactly 24 hours. The error outcome and the no-update outcome
    lead to worlds that differ in nothing but the notification emitted. *)
Theorem completion_persists_and_rearms
    (o : Outcome) (wk : Worker) (now : Z) (w : World) :
  (exists w',
     process_outcome wk o now w = Ok tt w' /\
     lastUpdateCheckDateTime (prefs w') = Some now /\
     isActive (timer_ w') = true /\
     interval (timer_ w') = 1000 * 60 * 60 * 24) /\
  (forall error, exists w_err w_no rest,
     process_outcome wk (Failed error) now w = Ok tt w_err /\
     process_outcome wk NotAvailable now w = Ok tt w_no /\
     timer_ w_err = timer_ w_no /\
     prefs w_err = prefs w_no /\
     workers w_err = workers w_no /\
     deferred w_err = deferred w_no /\
     next_obj w_err = next_obj w_no /\
     trace w_err = trace w ++ Emit updateCheckFailed :: rest /\
     trace w_no = trace w ++ Emit noUpdateIsAvailable :: rest).
Proof.
  split.
  - destruct o; run_handlers; eexists; (split; [reflexivity|]);
      simpl_world; repeat split.
  - intros error. run_handlers. do 3 eexists.
    split; [reflexivity|]. split; [reflexivity|].
    simpl_world. repeat split; flatten_trace; reflexivity.
Qed.

Lemma emitted_by_trace {A : Type} (c : M A) (w : World) (l : list Event) :
  trace (world_of (c w)) = trace w ++ l -> emitted_by c w = l.
Proof.
  intros H. unfold emitted_by. rewrite H, skipn_app, skipn_all, Nat.sub_diag.
  reflexivity.
Qed.

(** When the preference is switched off while a check is in flight, the check
    finishes, and the completion slot starts the timer for 24 hours although
    the preference is off: [onWorkerFinished] does not read the preference. *)
Lemma disable_in_flight_rearms
    (o : Outcome) (t_off t_done : Z) (w : World) :
  exists w',
    disable_in_flight o t_off t_done w = Ok tt w' /\
    autoCheckForUpdates (prefs w') = false /\
    isActive (timer_ w') = true /\
    interval (timer_ w') = 86400000.
Proof.
  unfold disable_in_flight, setAutoCheckForUpdates, worker_run, deliver.
  destruct o; run_handlers; eexists; (split; [reflexivity|]);
    simpl_world; repeat split.
Qed.

(** C4, on the code. In the run from program start in which the preference is
    switched off while the first check is in flight, the check finishes
    normally, and at the end the preference is off and the timer is active
    with an interval of 24 hours: the completion has re-armed it. *)
Theorem disabled_during_first_check_armed :
  returns disabled_during_first_check = true /\
  autoCheckForUpdates (prefs (world_of disabled_during_first_check)) = false /\
  isActive (timer_ (world_of disabled_during_first_check)) = true /\
  interval (timer_ (world_of disabled_during_first_check)) = 86400000.
Proof. repeat split. Qed.

(** ** The entry point of a check *)

(** C5. In every world, [checkForUpdate] stops the timer first, then emits
    [startedUpdateCheck] and creates, connects and starts a worker on a fresh
    thread. It returns with the timer inactive and with one more live worker
    than before, whether or not other workers are still live. *)
Theorem checkForUpdate_always_starts (w : World) :
  exists w',
    checkForUpdate w = Ok tt w' /\
    isActive (timer_ w') = false /\
    workers w' = started_worker w :: workers w /\
    emitted_by checkForUpdate w =
      let thread := next_obj w in
      let worker := S (next_obj w) in
      [TimerStop; Emit startedUpdateCheck; NewThread thread; NewWorker worker;
       MoveToThread worker thread;
       Connect (started_to_run thread worker);
       Connect (finished_to_onWorkerFinished worker);
       Connect (updateIsAvailable_to_onWorkerUpdateIsAvailable worker);
       Connect (noUpdateIsAvailable_to_onWorkerNoUpdateIsAvailable worker);
       Connect (error_to_onWorkerError worker);
       ThreadStart thread].
Proof.
  eexists. split; [run_handlers; reflexivity|].
  simpl_world. repeat split.
  apply emitted_by_trace. run_handlers. cbn [world_of]. simpl_world.
  flatten_trace. reflexivity.
Qed.

(** ** Failures *)

(** C6. (a) When the sender of the completion cannot be identified as a
    worker, [onWorkerFinished] throws in the world it was called in: nothing
    has been torn down, persisted or re-armed. (b) With a null version
    information, [onWorkerUpdateIsAvailable] throws in the world it was called
    in: nothing has been emitted. (c) The slot of the worker's error returns
    normally after the one notification [updateCheckFailed], and the
    completion slot that follows re-arms the timer for 24 hours. *)
Theorem failure_taxonomy (error : string) (wk : Worker) (now : Z) (w : World) :
  onWorkerFinished None now w =
    Throw "An Internal error occurred while checking for updates." w /\
  (exists msg, onWorkerUpdateIsAvailable None w = Throw msg w) /\
  emitted_by (onWorkerUpdateIsAvailable None) w = [] /\
  onWorkerError error w = Ok tt (record (Emit updateCheckFailed) w) /\
  emitted_by (onWorkerError error) w = [Emit updateCheckFailed] /\
  (exists w',
     (onWorkerError error ;; onWorkerFinished (Some wk) now) w = Ok tt w' /\
     lastUpdateCheckDateTime (prefs w') = Some now /\
     isActive (timer_ w') = true /\
     interval (timer_ w') = 86400000).
Proof.
  split; [reflexivity|].
  split; [eexists; reflexivity|].
  split; [apply emitted_by_trace; cbn; now rewrite app_nil_r|].
  split; [reflexivity|].
  split; [apply emitted_by_trace; reflexivity|].
  run_handlers. eexists. split; [reflexivity|]. simpl_world. repeat split.
Qed.

(** ** The failure notification *)

(** C7, as stated, fails: no consumer can recover the worker's error message
    from what [onWorkerError] emits, because two different messages lead to
    the same events. *)
Lemma updateCheckFailed_has_no_description :
  ~ (exists describe : list Event -> string,
       forall (error : string) (w : World),
         describe (emitted_by (onWorkerError error) w) = error).
Proof.
  intros (describe & H).
  pose proof (H "timeout"%string (World_new first_launch_prefs)) as H1.
  pose proof (H "no route to host"%string (World_new first_launch_prefs)) as H2.
  cbv [emitted_by onWorkerError emit effect world_of record trace World_new
       List.length app skipn] in H1, H2.
  rewrite H1 in H2. discriminate H2.
Qed.

(** C7, amended. Whatever error message the worker reports, [onWorkerError]
    emits the notification [updateCheckFailed], which has no argument, and
    nothing else; the world it returns does not depend on the message. *)
Theorem onWorkerError_ignores_message (error error' : string) (w : World) :
  onWorkerError error w = Ok tt (record (Emit updateCheckFailed) w) /\
  emitted_by (onWorkerError error) w = [Emit updateCheckFailed] /\
  onWorkerError error w = onWorkerError error' w.
Proof.
  split; [reflexivity|]. split; [|reflexivity].
  apply emitted_by_trace. reflexivity.
Qed.

(** * Properties of the global accessors *)

Import Globals.

(** ** The backup folder *)

Lemma isEmpty_spec (s : string) : isEmpty s = true <-> s = EmptyString.
Proof.
  destruct s; cbn [isEmpty]; split; intros H; try reflexivity; discriminate H.
Qed.

(** C8. [backupFolderPath] is the default backup folder, which is the entry
    "Backup" of the application data directory, when the preference for a
    custom location is off, and also when it is on but the custom location is
    empty; it is the custom location when the preference is on and the custom
    location is not empty, and a result other than the default arises in that
    case only. *)
Theorem backupFolderPath_choice
    (absoluteFilePath : string -> string -> string) (env : Env) :
  let prefs := preferences env in
  let result := backupFolderPath absoluteFilePath env in
  let default := defaultBackupFolderPath absoluteFilePath env in
  default = absoluteFilePath (appDataDir absoluteFilePath env) "Backup"%string /\
  (useCustomBackupLocation prefs = false -> result = default) /\
  (useCustomBackupLocation prefs = true ->
   customBackupLocation prefs = EmptyString -> result = default) /\
  (useCustomBackupLocation prefs = true ->
   customBackupLocation prefs <> EmptyString ->
   result = customBackupLocation prefs) /\
  (result <> default ->
   useCustomBackupLocation prefs = true /\
   customBackupLocation prefs <> EmptyString /\
   result = customBackupLocation prefs).
Proof.
  intros prefs result default. subst result default prefs.
  unfold backupFolderPath.
  destruct (useCustomBackupLocation (preferences env)) eqn:U; cbn [negb].
  - destruct (isEmpty (customBackupLocation (preferences env))) eqn:E.
    + apply isEmpty_spec in E.
      repeat split; try reflexivity; try discriminate; try congruence.
    + assert (N : customBackupLocation (preferences env) <> EmptyString).
      { intros C. apply isEmpty_spec in C. congruence. }
      repeat split; try reflexivity; try discriminate; try congruence.
  - repeat split; try reflexivity; try discriminate; try congruence.
Qed.

(** For the installed application: the default folder without a custom
    location and with an empty one, and the custom folder [D:/Backups]. *)
Lemma backupFolderPath_choice_witness :
  backupFolderPath joinPath (installed_env false "D:/Backups")
    = "C:/Users/u/AppData/Local/Beeftext/Backup"%string /\
  backupFolderPath joinPath (installed_env true EmptyString)
    = "C:/Users/u/AppData/Local/Beeftext/Backup"%string /\
  backupFolderPath joinPath (installed_env true "D:/Backups")
    = "D:/Backups"%string /\
  useCustomBackupLocation (preferences (installed_env true "D:/Backups")) = true.
Proof.
  destruct (backupFolderPath_choice joinPath (installed_env false "D:/Backups"))
    as (_ & Hoff & _).
  destruct (backupFolderPath_choice joinPath (installed_env true EmptyString))
    as (_ & _ & Hempty & _).
  destruct (backupFolderPath_choice joinPath (installed_env true "D:/Backups"))
    as (_ & _ & _ & Hcustom & Honly).
  split; [exact (Hoff eq_refl)|].
  split; [exact (Hempty eq_refl eq_refl)|].
  split; [apply (Hcustom eq_refl); discriminate|].
  apply Honly. discriminate.
Defined.

(** ** The clipboard manager *)

Lemma clipboardManager_calls_initialized (n obj : nat) (g : Statics) :
  clipboardManagerPtr g = Some obj ->
  clipboardManager_calls n g = (repeat obj n, g).
Proof.
  intros H. induction n as [|n IH]; cbn [clipboardManager_calls repeat].
  - reflexivity.
  - unfold clipboardManager. rewrite H.
    fold (clipboardManager_calls n g). rewrite IH. reflexivity.
Qed.

(** C10. A call of [clipboardManager] leaves a non-null pointer to the object
    it returns; it constructs an object exactly when the pointer was null
    before; and any number of further calls return that same object and leave
    the statics as they are, so nothing is constructed or replaced again. From
    program start, all calls return the object of the first call and exactly
    one object has been constructed. *)
Theorem clipboardManager_lazy_singleton (n : nat) (g : Statics) :
  let obj := fst (clipboardManager g) in
  let g1 := snd (clipboardManager g) in
  clipboardManagerPtr g1 = Some obj /\
  constructed g1 =
    match clipboardManagerPtr g with
    | None => S (constructed g)
    | Some _ => constructed g
    end /\
  match clipboardManagerPtr g with
  | None => True
  | Some old => obj = old /\ g1 = g
  end /\
  clipboardManager_calls n g1 = (repeat obj n, g1) /\
  clipboardManager_calls (S n) Statics_init =
    (repeat 0%nat (S n), {| clipboardManagerPtr := Some 0%nat; constructed := 1 |}).
Proof.
  intros obj g1.
  assert (P : clipboardManagerPtr g1 = Some obj).
  { subst obj g1. unfold clipboardManager.
    destruct (clipboardManagerPtr g) eqn:E; cbn [fst snd clipboardManagerPtr];
      [exact E | reflexivity]. }
  split; [exact P|].
  split; [subst g1; unfold clipboardManager;
          destruct (clipboardManagerPtr g); reflexivity|].
  split; [subst obj g1; unfold clipboardManager;
          destruct (clipboardManagerPtr g); cbn [fst snd]; auto|].
  split; [now apply clipboardManager_calls_initialized|].
  cbn [clipboardManager_calls].
  unfold clipboardManager at 1. cbn [clipboardManagerPtr Statics_init constructed].
  rewrite (clipboardManager_calls_initialized n 0) by reflexivity.
  reflexivity.
Qed.

(** ** The other path helpers *)

(** X11. In portable mode every path is computed from the application directory
    and the layout alone: the system's location for application data and the
    preferences have no part in the data paths, the settings file or the
    translations shipped with the application. *)
Theorem portable_paths_ignore_system_location
    (absoluteFilePath : string -> string -> string) (env env' : Env) :
  isInPortableMode env = true ->
  isInPortableMode env' = true ->
  applicationDirPath env = applicationDirPath env' ->
  usePortableAppsFolderLayout env = usePortableAppsFolderLayout env' ->
  appDataDir absoluteFilePath env = portableModeDataFolderPath absoluteFilePath env /\
  dataPaths absoluteFilePath env = dataPaths absoluteFilePath env' /\
  portableModeSettingsFilePath absoluteFilePath env
    = portableModeSettingsFilePath absoluteFilePath env' /\
  translationRootFolderPath absoluteFilePath env
    = translationRootFolderPath absoluteFilePath env'.
Proof.
  intros P P' A L.
  assert (D : appDataDir absoluteFilePath env = appDataDir absoluteFilePath env').
  { unfold appDataDir, portableModeDataFolderPath. now rewrite P, P', A, L. }
  split; [unfold appDataDir; now rewrite P|].
  split; [|split].
  - unfold dataPaths, userTranslationRootFolderPath, logFilePath,
      defaultBackupFolderPath, sensitiveApplicationsFilePath,
      emojiExcludedAppsFilePath. now rewrite D.
  - unfold portableModeSettingsFilePath, portableModeDataFolderPath.
    now rewrite A, L.
  - unfold translationRootFolderPath. now rewrite A.
Qed.

Lemma portable_paths_ignore_system_location_witness :
  dataPaths joinPath (portable_env false "C:/Users/u/AppData/Local/Beeftext")
    = dataPaths joinPath (portable_env false "D:/elsewhere") /\
  logFilePath joinPath (portable_env false "D:/elsewhere")
    = "E:/Beeftext/App/Beeftext/Data/log.txt"%string.
Proof.
  split; [|reflexivity].
  apply (portable_paths_ignore_system_location joinPath
           (portable_env false "C:/Users/u/AppData/Local/Beeftext")
           (portable_env false "D:/elsewhere")); reflexivity.
Defined.

(** X12. Outside portable mode the data paths are computed from the system's
    location for application data alone: the application directory and the
    layout flag have no part in them. *)
Theorem installed_paths_ignore_application_dir
    (absoluteFilePath : string -> string -> string) (env env' : Env) :
  isInPortableMode env = false ->
  isInPortableMode env' = false ->
  appLocalDataLocation env = appLocalDataLocation env' ->
  appDataDir absoluteFilePath env = appLocalDataLocation env /\
  dataPaths absoluteFilePath env = dataPaths absoluteFilePath env'.
Proof.
  intros P P' A.
  assert (D : appDataDir absoluteFilePath env = appDataDir absoluteFilePath env').
  { unfold appDataDir. now rewrite P, P', A. }
  split; [unfold appDataDir; now rewrite P|].
  unfold dataPaths, userTranslationRootFolderPath, logFilePath,
    defaultBackupFolderPath, sensitiveApplicationsFilePath,
    emojiExcludedAppsFilePath. now rewrite D.
Qed.

Lemma installed_paths_ignore_application_dir_witness :
  dataPaths joinPath (installed_env false "D:/Backups")
    = dataPaths joinPath
        {| isInPortableMode := false; usePortableAppsFolderLayout := true;
           applicationDirPath := "E:/Beeftext/App/Beeftext";
           appLocalDataLocation := "C:/Users/u/AppData/Local/Beeftext";
           preferences := preferences (installed_env true "D:/Backups") |}.
Proof.
  apply (installed_paths_ignore_application_dir joinPath); reflexivity.
Defined.

(** X13. The backup folder is never the empty path as long as the default backup
    folder is not: an empty custom location falls back to the default, and a
    custom location that is used is not empty. *)
Theorem backupFolderPath_not_empty
    (absoluteFilePath : string -> string -> string) (env : Env) :
  isEmpty (defaultBackupFolderPath absoluteFilePath env) = false ->
  isEmpty (backupFolderPath absoluteFilePath env) = false.
Proof.
  intros D. unfold backupFolderPath.
  destruct (useCustomBackupLocation (preferences env)); cbn [negb]; [|exact D].
  destruct (isEmpty (customBackupLocation (preferences env))) eqn:E;
    [exact D | exact E].
Qed.

Lemma backupFolderPath_not_empty_witness :
  isEmpty (backupFolderPath joinPath (installed_env true EmptyString)) = false.
Proof.
  apply backupFolderPath_not_empty. reflexivity.
Defined.

(** * Further properties of the update manager *)

(** ** Lists of events and of workers *)

Lemma count_app (p : Event -> bool) (l1 l2 : list Event) :
  count p (l1 ++ l2) = (count p l1 + count p l2)%nat.
Proof. unfold count. now rewrite filter_app, length_app. Qed.

Lemma deleted_workers_app (l1 l2 : list Event) :
  deleted_workers (l1 ++ l2) = deleted_workers l1 ++ deleted_workers l2.
Proof.
  induction l1 as [|e l1 IH]; [reflexivity|].
  destruct e; cbn [app deleted_workers]; now rewrite IH.
Qed.

Lemma deleted_later_app (l1 l2 : list Event) :
  deleted_later (l1 ++ l2) = deleted_later l1 ++ deleted_later l2.
Proof.
  induction l1 as [|e l1 IH]; [reflexivity|].
  destruct e; cbn [app deleted_later]; now rewrite IH.
Qed.

Lemma Worker_eqb_eq (a b : Worker) : Worker_eqb a b = true <-> a = b.
Proof.
  destruct a as [ia ta], b as [ib tb]. unfold Worker_eqb. cbn [wid wthread].
  rewrite andb_true_iff, !Nat.eqb_eq. split.
  - intros [-> ->]. reflexivity.
  - intros E. injection E as -> ->. split; reflexivity.
Qed.

Lemma is_live_In (wk : Worker) (w : World) :
  is_live wk w = true -> In wk (workers w).
Proof.
  unfold is_live. rewrite existsb_exists. intros (x & Hx & E).
  apply Worker_eqb_eq in E. now subst x.
Qed.

Lemma filter_keeps_all {A : Type} (p : A -> bool) (l : list A) :
  (forall x, In x l -> p x = true) -> filter p l = l.
Proof.
  induction l as [|a l IH]; intros H; [reflexivity|].
  cbn [filter]. rewrite (H a (or_introl eq_refl)).
  f_equal. apply IH. intros x Hx. apply H. now right.
Qed.

(** Deleting a live worker takes exactly that worker out of the list. *)
Lemma delete_live_worker (wk : Worker) (l : list Worker) :
  NoDup (map wid l) -> In wk l ->
  exists l1 l2,
    l = l1 ++ wk :: l2 /\
    filter (fun x => negb (Worker_eqb x wk)) l = l1 ++ l2.
Proof.
  intros ND Hin. destruct (in_split _ _ Hin) as (l1 & l2 & ->).
  exists l1, l2. split; [reflexivity|].
  rewrite map_app in ND. cbn [map] in ND.
  pose proof (NoDup_remove_2 _ _ _ ND) as Hnot.
  assert (K : forall x, In x (l1 ++ l2) -> negb (Worker_eqb x wk) = true).
  { intros x Hx. apply negb_true_iff.
    destruct (Worker_eqb x wk) eqn:E; [|reflexivity].
    apply Worker_eqb_eq in E. subst x. exfalso. apply Hnot.
    rewrite <- map_app. now apply in_map. }
  rewrite filter_app. cbn [filter].
  replace (Worker_eqb wk wk) with true by (symmetry; now apply Worker_eqb_eq).
  cbn [negb]. rewrite <- filter_app. now apply filter_keeps_all.
Qed.

(** ** One input *)

Ltac run_handlers_in H :=
  unfold handle, setAutoCheckForUpdates, UpdateManager_ctor, get_autoCheckForUpdates,
    process_outcome, dispatch, outcome_signal, onWorkerFinished,
    onWorkerUpdateIsAvailable, onWorkerNoUpdateIsAvailable, onWorkerError,
    checkForUpdate, startUpdateCheckWorker, onAutoCheckForUpdateChanged,
    bind, ret, throw, emit, timer_stop, timer_start, timer_setSingleShot,
    connect, new_QThread, new_UpdateCheckWorker, moveToThread, thread_start,
    thread_quit, thread_wait, delete_worker, thread_deleteLater,
    setLastUpdateCheckDateTime, get_lastUpdateCheckDateTime,
    debugLog_addInfo, updateDialog_exec, effect in H;
  cbn [negb] in H.

(** The worlds an enabled input can lead to, one case per slot. *)
Ltac step_cases i H :=
  destruct i as [ | | [|] | ? [ | [?|] | | ?]];
  run_handlers_in H;
  try discriminate H;
  injection H as <-;
  simpl_world; flatten_trace.

Ltac trace_lists :=
  rewrite ?deleted_workers_app, ?deleted_later_app, ?count_app;
  cbn [deleted_workers deleted_later app];
  rewrite ?app_nil_r.

Lemma Forall_lt_weaken (n m : nat) (l : list nat) :
  (n <= m)%nat -> Forall (fun x => (x < n)%nat) l -> Forall (fun x => (x < m)%nat) l.
Proof. intros L. apply Forall_impl. intros; lia. Qed.

Lemma Forall_lt_not_In (n : nat) (l : list nat) :
  Forall (fun x => (x < n)%nat) l -> forall m, (n <= m)%nat -> ~ In m l.
Proof.
  intros F m L Hin. rewrite Forall_forall in F. specialize (F m Hin). lia.
Qed.

Lemma workers_bounds (n : nat) (l : list Worker) :
  Forall (fun x => (wid x < n)%nat /\ (wthread x < n)%nat) l ->
  Forall (fun x => (x < n)%nat) (map wid l) /\
  Forall (fun x => (x < n)%nat) (map wthread l).
Proof.
  intros F. split; apply Forall_map; revert F; apply Forall_impl; tauto.
Qed.

Lemma checkForUpdate_objects_ok (w w' : World) :
  objects_ok w -> checkForUpdate w = Ok tt w' -> objects_ok w'.
Proof.
  intros (B & Bw & Bt & Nw & Nt) H. run_handlers_in H. injection H as <-.
  unfold objects_ok. simpl_world. flatten_trace. trace_lists.
  destruct (workers_bounds _ _ B) as (Bi & Bth).
  repeat split.
  - constructor; [cbn [wid wthread]; lia|].
    revert B. apply Forall_impl. intros x [? ?]. lia.
  - revert Bw. apply Forall_lt_weaken. lia.
  - revert Bt. apply Forall_lt_weaken. lia.
  - cbn [map wid app]. constructor; [|exact Nw].
    apply (Forall_lt_not_In (next_obj w)); [|lia].
    apply Forall_app. split; assumption.
  - cbn [map wthread app]. constructor; [|exact Nt].
    apply (Forall_lt_not_In (next_obj w)); [|lia].
    apply Forall_app. split; assumption.
Qed.

Lemma onWorkerFinished_objects_ok (wk : Worker) (now : Z) (w w' : World) :
  objects_ok w -> is_live wk w = true ->
  onWorkerFinished (Some wk) now w = Ok tt w' -> objects_ok w'.
Proof.
  intros (B & Bw & Bt & Nw & Nt) L H. run_handlers_in H. injection H as <-.
  apply is_live_In in L.
  assert (Nw0 : NoDup (map wid (workers w))) by (now apply NoDup_app_remove_r in Nw).
  destruct (delete_live_worker wk (workers w) Nw0 L) as (l1 & l2 & E & F).
  unfold objects_ok. simpl_world. flatten_trace. trace_lists.
  rewrite F. rewrite E in B, Nw, Nt.
  assert (Bwk : (wid wk < next_obj w)%nat /\ (wthread wk < next_obj w)%nat).
  { rewrite Forall_forall in B. apply B. apply in_elt. }
  repeat split.
  - apply Forall_app in B. destruct B as (B1 & B2).
    apply Forall_app. split; [exact B1 | now inversion B2].
  - apply Forall_app. split; [exact Bw | constructor; [tauto | constructor]].
  - apply Forall_app. split; [exact Bt | constructor; [tauto | constructor]].
  - eapply Permutation_NoDup; [|exact Nw].
    rewrite !map_app. cbn [map]. rewrite <- !app_assoc. cbn [app].
    apply Permutation_app_head. rewrite app_assoc.
    apply Permutation_cons_append.
  - eapply Permutation_NoDup; [|exact Nt].
    rewrite !map_app. cbn [map]. rewrite <- !app_assoc. cbn [app].
    apply Permutation_app_head. rewrite app_assoc.
    apply Permutation_cons_append.
Qed.

Lemma handle_objects_ok (now : Z) (i : Input) (w w' : World) :
  objects_ok w -> enabled_input w i = true ->
  handle now i w = Ok tt w' -> objects_ok w'.
Proof.
  intros O En H.
  destruct i as [ | | enabled | wk sig]; cbn [handle] in H.
  - now apply (checkForUpdate_objects_ok w).
  - now apply (checkForUpdate_objects_ok w).
  - destruct enabled; run_handlers_in H; injection H as <-;
      unfold objects_ok; simpl_world; flatten_trace; trace_lists; exact O.
  - destruct sig as [ | [info|] | | error]; cbn [dispatch] in H.
    + now apply (onWorkerFinished_objects_ok wk now w).
    + run_handlers_in H. injection H as <-.
      unfold objects_ok; simpl_world; flatten_trace; trace_lists; exact O.
    + discriminate H.
    + run_handlers_in H. injection H as <-.
      unfold objects_ok; simpl_world; flatten_trace; trace_lists; exact O.
    + run_handlers_in H. injection H as <-.
      unfold objects_ok; simpl_world; flatten_trace; trace_lists; exact O.
Qed.

(** ** Whole runs *)

Lemma run_invariant (P : World -> Prop) :
  (forall now i w w',
     P w -> enabled_input w i = true -> handle now i w = Ok tt w' -> P w') ->
  forall l w w', P w -> run l w = Some w' -> P w'.
Proof.
  intros Step. induction l as [|[now i] l IH]; intros w w' Pw H; cbn [run] in H.
  - now injection H as <-.
  - destruct (enabled_input w i) eqn:En; [|discriminate H].
    destruct (handle now i w) as [[] w1|msg w1] eqn:Hh; [|discriminate H].
    apply (IH w1 w'); [|exact H]. now apply (Step now i w w1).
Qed.

Lemma launch_invariant (p : PreferencesManager) (P : World -> Prop) :
  (forall now w, UpdateManager_ctor now (World_new p) = Ok tt w -> P w) ->
  (forall now i w w',
     P w -> enabled_input w i = true -> handle now i w = Ok tt w' -> P w') ->
  forall now l w, launch p now l = Some w -> P w.
Proof.
  intros Base Step now l w H. unfold launch in H.
  destruct (UpdateManager_ctor now (World_new p)) as [[] w0|msg w0] eqn:C;
    [|discriminate H].
  apply (run_invariant P Step l w0 w); [|exact H]. now apply (Base now).
Qed.

Lemma ctor_world (p : PreferencesManager) (now : Z) (w : World) :
  UpdateManager_ctor now (World_new p) = Ok tt w ->
  workers w = [] /\ deferred w = [] /\ next_obj w = 0%nat /\ prefs w = p /\
  singleShot (timer_ w) = true /\
  isActive (timer_ w) = autoCheckForUpdates p /\
  (isActive (timer_ w) = true ->
   interval (timer_ w) = to_int (msSecsToNextCheck now (lastUpdateCheckDateTime p))) /\
  exists timerEvents,
    trace w = [TimerSetSingleShot true; Connect timeout_to_checkForUpdate;
               Connect autoCheckForUpdatesChanged_to_onAutoCheckForUpdateChanged;
               TimerStop] ++ timerEvents /\
    Forall (fun e => exists ms, e = TimerStart ms) timerEvents.
Proof.
  intros H. unfold UpdateManager_ctor, bind, get_autoCheckForUpdates in H.
  cbn [timer_setSingleShot connect effect record set_timer prefs World_new] in H.
  destruct (autoCheckForUpdates p) eqn:A; run_handlers_in H;
    injection H as <-; simpl_world; cbn [World_new timer_ prefs workers deferred next_obj trace];
    repeat split; try discriminate.
  - eexists. split; [reflexivity|]. constructor; [eexists; reflexivity | constructor].
  - exists []. split; [reflexivity | constructor].
Qed.

Lemma launch_objects_ok (p : PreferencesManager) (now : Z)
    (l : list (Z * Input)) (w : World) :
  launch p now l = Some w -> objects_ok w.
Proof.
  revert now l w. apply (launch_invariant p objects_ok).
  - intros now w H.
    destruct (ctor_world p now w H) as (W & _ & N & _ & _ & _ & _ & ev & T & F).
    unfold objects_ok. rewrite W, N, T. rewrite deleted_workers_app, deleted_later_app.
    cbn [deleted_workers deleted_later map app].
    assert (D : deleted_workers ev = [] /\ deleted_later ev = []).
    { clear T. induction F as [|e ev (ms & ->) F IH]; [split; reflexivity|].
      cbn [deleted_workers deleted_later]. exact IH. }
    destruct D as (-> & ->). repeat split; constructor.
  - intros now i w w'. apply handle_objects_ok.
Qed.

Lemma NoDup_app_disjoint {A : Type} (l1 l2 : list A) :
  NoDup (l1 ++ l2) -> forall x, In x l1 -> ~ In x l2.
Proof.
  induction l1 as [|a l1 IH]; intros ND x Hx; [destruct Hx|].
  cbn [app] in ND. apply NoDup_cons_iff in ND. destruct ND as (Na & ND).
  destruct Hx as [->|Hx].
  - intros H2. apply Na. apply in_or_app. now right.
  - now apply IH.
Qed.

(** X1. Whatever reaches the manager after its construction, no worker is deleted
    twice, no thread is handed to [deleteLater] twice, no two live workers
    share a thread, and a live worker is neither deleted nor is its thread
    handed over. *)
Theorem launch_deletes_once (p : PreferencesManager) (now : Z)
    (l : list (Z * Input)) (w : World) :
  launch p now l = Some w ->
  NoDup (deleted_workers (trace w)) /\
  NoDup (deleted_later (trace w)) /\
  NoDup (map wthread (workers w)) /\
  (forall wk, In wk (workers w) ->
     ~ In (wid wk) (deleted_workers (trace w)) /\
     ~ In (wthread wk) (deleted_later (trace w))).
Proof.
  intros H. destruct (launch_objects_ok p now l w H) as (_ & _ & _ & Nw & Nt).
  split; [now apply NoDup_app_remove_l in Nw|].
  split; [now apply NoDup_app_remove_l in Nt|].
  split; [now apply NoDup_app_remove_r in Nt|].
  intros wk Hin. split.
  - apply (NoDup_app_disjoint _ _ Nw). now apply in_map.
  - apply (NoDup_app_disjoint _ _ Nt). now apply in_map.
Qed.

Lemma launch_deletes_once_witness :
  exists w,
    launch first_launch_prefs 0 busy_first_day = Some w /\
    deleted_workers (trace w) = [1; 3]%nat /\
    NoDup (deleted_workers (trace w)) /\
    NoDup (deleted_later (trace w)).
Proof.
  eexists. split; [vm_compute; reflexivity|]. split; [reflexivity|].
  assert (E : launch first_launch_prefs 0 busy_first_day = Some _)
    by (vm_compute; reflexivity).
  destruct (launch_deletes_once first_launch_prefs 0 busy_first_day _ E)
    as (D & T & _).
  split; [exact D | exact T].
Defined.

(** X2. The checks in progress are the checks started and not yet finished: in
    every run the number of live workers is the number of [startedUpdateCheck]
    notifications less the number of [finishedUpdateCheck] notifications. *)
Theorem launch_checks_in_progress (p : PreferencesManager) (now : Z)
    (l : list (Z * Input)) (w : World) :
  launch p now l = Some w ->
  count is_started_notification (trace w) =
    (List.length (workers w) + count is_finished_notification (trace w))%nat.
Proof.
  intros H.
  enough (K : objects_ok w /\
              count is_started_notification (trace w) =
              (List.length (workers w) + count is_finished_notification (trace w))%nat)
    by apply K.
  revert now l w H. apply (launch_invariant p).
  - intros now w H.
    split; [apply (launch_objects_ok p now []); unfold launch; now rewrite H|].
    destruct (ctor_world p now w H) as (W & _ & _ & _ & _ & _ & _ & ev & T & F).
    rewrite W, T, !count_app.
    assert (D : count is_started_notification ev = 0%nat /\
                count is_finished_notification ev = 0%nat).
    { clear T. induction F as [|e ev (ms & ->) F IH]; [split; reflexivity|]. exact IH. }
    destruct D as (-> & ->). reflexivity.
  - intros now i w w' (O & C) En H.
    split; [now apply (handle_objects_ok now i w)|].
    destruct i as [ | | enabled | wk sig]; cbn [handle] in H.
    + run_handlers_in H. injection H as <-. simpl_world. flatten_trace.
      rewrite !count_app, C. cbn. lia.
    + run_handlers_in H. injection H as <-. simpl_world. flatten_trace.
      rewrite !count_app, C. cbn. lia.
    + destruct enabled; run_handlers_in H; injection H as <-; simpl_world;
        flatten_trace; rewrite !count_app, C; cbn; lia.
    + destruct sig as [ | [info|] | | error]; cbn [dispatch] in H.
      * cbn [enabled_input] in En. apply is_live_In in En.
        destruct O as (_ & _ & _ & Nw & _). apply NoDup_app_remove_r in Nw.
        destruct (delete_live_worker wk (workers w) Nw En) as (l1 & l2 & E & F).
        run_handlers_in H. injection H as <-. simpl_world. flatten_trace.
        rewrite !count_app, C, F, E, !length_app. cbn. lia.
      * run_handlers_in H. injection H as <-. simpl_world. flatten_trace.
        rewrite !count_app, C. cbn. lia.
      * discriminate H.
      * run_handlers_in H. injection H as <-. simpl_world. flatten_trace.
        rewrite !count_app, C. cbn. lia.
      * run_handlers_in H. injection H as <-. simpl_world. flatten_trace.
        rewrite !count_app, C. cbn. lia.
Qed.

Lemma launch_checks_in_progress_witness :
  exists w,
    launch first_launch_prefs 0 (firstn 3 busy_first_day) = Some w /\
    List.length (workers w) = 2%nat /\
    count is_started_notification (trace w) =
      (List.length (workers w) + count is_finished_notification (trace w))%nat.
Proof.
  eexists. split; [vm_compute; reflexivity|]. split; [reflexivity|].
  apply (launch_checks_in_progress first_launch_prefs 0 (firstn 3 busy_first_day)).
  vm_compute. reflexivity.
Defined.

Lemma narrowed_delay_not_ahead (now : Z) (d : QDateTime) :
  in_range now ->
  (forall u, d = Some u -> in_range u /\ u <= now) ->
  1000 <= to_int (msSecsToNextCheck now d) <= 86400000.
Proof.
  intros Hn Hd. destruct d as [u|].
  - destruct (Hd u eq_refl) as (Hu & Le).
    assert (E : 2 ^ 31 = 2147483648) by reflexivity.
    destruct (narrowed_delay_when_it_fits now u Hn Hu) as (-> & _); lia.
  - cbv. split; discriminate.
Qed.

Lemma handle_with_clock (now : Z) (i : Input) (w w' : World) :
  in_range now -> last_check_not_after now w -> timer_in_order w ->
  handle now i w = Ok tt w' ->
  last_check_not_after now w' /\ timer_in_order w'.
Proof.
  unfold last_check_not_after, timer_in_order. intros Hn L (S & I) H.
  destruct i as [ | | enabled | wk sig]; cbn [handle] in H.
  - run_handlers_in H. injection H as <-. simpl_world.
    split; [exact L | split; [exact S | discriminate]].
  - run_handlers_in H. injection H as <-. simpl_world.
    split; [exact L | split; [exact S | discriminate]].
  - destruct enabled; run_handlers_in H; injection H as <-; simpl_world.
    + split; [exact L | split; [exact S|]]. intros _.
      now apply narrowed_delay_not_ahead.
    + split; [exact L | split; [exact S | discriminate]].
  - destruct sig as [ | [info|] | | error]; cbn [dispatch] in H;
      run_handlers_in H; try discriminate H; injection H as <-; simpl_world;
      try (split; [exact L | split; [exact S | exact I]]).
    split.
    + intros u E. injection E as <-. split; [exact Hn | lia].
    + split; [exact S|]. intros _. cbv. split; discriminate.
Qed.

Lemma run_with_clock (l : list (Z * Input)) :
  forall t w w',
    in_range t -> clock_from t l = true ->
    last_check_not_after t w -> timer_in_order w ->
    run l w = Some w' -> timer_in_order w'.
Proof.
  induction l as [|[now i] l IH]; intros t w w' Ht C L T H; cbn [run] in H.
  - now injection H as <-.
  - cbn [clock_from] in C. apply andb_true_iff in C. destruct C as (C & Cl).
    apply andb_true_iff in C. destruct C as (C1 & C2).
    apply Z.leb_le in C1. apply Z.leb_le in C2.
    assert (Hn : in_range now) by (unfold in_range in *; lia).
    assert (L' : last_check_not_after now w).
    { intros u E. destruct (L u E) as (Hu & Le). split; [exact Hu | lia]. }
    destruct (enabled_input w i); [|discriminate H].
    destruct (handle now i w) as [[] w1|msg w1] eqn:Hh; [|discriminate H].
    destruct (handle_with_clock now i w w1 Hn L' T Hh) as (L1 & T1).
    exact (IH now w1 w' Hn Cl L1 T1 H).
Qed.

(** X3. In every run in which the clock does not run backwards and the last
    check recorded at launch, if any, is not later than the launch, the timer
    stays single-shot, and whenever it is active its interval is at least one
    second and at most 24 hours. *)
Theorem launch_timer_single_shot_min_delay (p : PreferencesManager) (now : Z)
    (l : list (Z * Input)) (w : World) :
  launch p now l = Some w ->
  in_range now ->
  clock_from now l = true ->
  (forall t, lastUpdateCheckDateTime p = Some t -> in_range t /\ t <= now) ->
  singleShot (timer_ w) = true /\
  (isActive (timer_ w) = true -> 1000 <= interval (timer_ w) <= 86400000).
Proof.
  intros H Hn C Lp. unfold launch in H.
  destruct (UpdateManager_ctor now (World_new p)) as [[] w0|msg w0] eqn:E;
    [|discriminate H].
  destruct (ctor_world p now w0 E) as (_ & _ & _ & P & S & _ & I & _).
  apply (run_with_clock l now w0 w Hn C); [| |exact H].
  - unfold last_check_not_after. rewrite P. exact Lp.
  - split; [exact S|]. intros A. rewrite (I A).
    now apply narrowed_delay_not_ahead.
Qed.

Lemma launch_timer_single_shot_min_delay_witness :
  exists w,
    launch first_launch_prefs 0 busy_first_day = Some w /\
    isActive (timer_ w) = true /\
    singleShot (timer_ w) = true /\
    1000 <= interval (timer_ w) <= 86400000.
Proof.
  eexists. split; [vm_compute; reflexivity|]. split; [reflexivity|].
  assert (E : launch first_launch_prefs 0 busy_first_day = Some _)
    by (vm_compute; reflexivity).
  destruct (launch_timer_single_shot_min_delay
              first_launch_prefs 0 busy_first_day _ E) as (S & I).
  - unfold in_range. lia.
  - reflexivity.
  - intros t D. discriminate D.
  - split; [exact S | exact (I eq_refl)].
Defined.

(** X4. The stored time of the last check never goes back to null: when it was
    set at launch, or when a check has finished during the run, it is set at
    the end of the run. *)
Theorem launch_last_check_stays_set (p : PreferencesManager) (now : Z)
    (l : list (Z * Input)) (w : World) :
  launch p now l = Some w ->
  lastUpdateCheckDateTime p <> None \/
  (0 < count is_finished_notification (trace w))%nat ->
  lastUpdateCheckDateTime (prefs w) <> None.
Proof.
  intros H.
  enough (K : (lastUpdateCheckDateTime p <> None ->
               lastUpdateCheckDateTime (prefs w) <> None) /\
              ((0 < count is_finished_notification (trace w))%nat ->
               lastUpdateCheckDateTime (prefs w) <> None)) by tauto.
  revert now l w H. apply (launch_invariant p).
  - intros now w H.
    destruct (ctor_world p now w H) as (_ & _ & _ & -> & _ & _ & _ & ev & T & F).
    split; [tauto|]. rewrite T, count_app.
    assert (D : count is_finished_notification ev = 0%nat).
    { clear T. induction F as [|e ev (ms & ->) F IH]; [reflexivity | exact IH]. }
    rewrite D. cbn. lia.
  - intros now i w w' (A & B) _ H.
    destruct i as [ | | enabled | wk sig]; cbn [handle] in H.
    + run_handlers_in H. injection H as <-. simpl_world. flatten_trace.
      rewrite count_app. cbn. rewrite Nat.add_0_r. tauto.
    + run_handlers_in H. injection H as <-. simpl_world. flatten_trace.
      rewrite count_app. cbn. rewrite Nat.add_0_r. tauto.
    + destruct enabled; run_handlers_in H; injection H as <-; simpl_world;
        flatten_trace; rewrite count_app; cbn; rewrite Nat.add_0_r; tauto.
    + destruct sig as [ | [info|] | | error]; cbn [dispatch] in H;
        run_handlers_in H; try discriminate H; injection H as <-; simpl_world;
        flatten_trace; rewrite ?count_app; cbn; rewrite ?Nat.add_0_r;
        try tauto.
      split; discriminate.
Qed.

Lemma launch_last_check_stays_set_witness :
  exists w,
    launch first_launch_prefs 0 busy_first_day = Some w /\
    lastUpdateCheckDateTime first_launch_prefs = None /\
    lastUpdateCheckDateTime (prefs w) <> None.
Proof.
  eexists. split; [vm_compute; reflexivity|]. split; [reflexivity|].
  apply (launch_last_check_stays_set first_launch_prefs 0 busy_first_day).
  - vm_compute. reflexivity.
  - right. vm_compute. lia.
Defined.

(** ** A whole check gives back what it took *)

Lemma outcome_slot_objects_ok (wk : Worker) (o : Outcome) (now : Z) (w : World) :
  objects_ok w ->
  exists w1,
    dispatch wk now (outcome_signal o) w = Ok tt w1 /\
    objects_ok w1 /\ workers w1 = workers w /\ deferred w1 = deferred w /\
    next_obj w1 = next_obj w.
Proof.
  intros O. destruct o; run_handlers; eexists; (split; [reflexivity|]);
    (split; [unfold objects_ok; simpl_world; flatten_trace; trace_lists; exact O|]);
    simpl_world; repeat split.
Qed.

Lemma checkForUpdate_world (w : World) :
  exists w1,
    checkForUpdate w = Ok tt w1 /\
    workers w1 = started_worker w :: workers w /\
    deferred w1 = deferred w /\
    next_obj w1 = S (S (next_obj w)).
Proof.
  run_handlers. eexists. split; [reflexivity|]. simpl_world. repeat split.
Qed.

(** X6. In a world whose objects are in order, a whole check ends with the same
    live workers it started with: the worker it creates is deleted again, and
    its thread, and no other, is handed to [deleteLater]. *)
Theorem one_check_restores_workers (o : Outcome) (now : Z) (w : World) :
  objects_ok w ->
  exists w',
    one_check o now w = Ok tt w' /\
    workers w' = workers w /\
    deferred w' = next_obj w :: deferred w /\
    next_obj w' = S (S (next_obj w)) /\
    objects_ok w'.
Proof.
  intros O. unfold one_check, worker_run, deliver.
  destruct (checkForUpdate_world w) as (w1 & H1 & W1 & D1 & N1).
  pose proof (checkForUpdate_objects_ok w w1 O H1) as O1.
  destruct (outcome_slot_objects_ok (started_worker w) o now w1 O1)
    as (w2 & H2 & O2 & W2 & D2 & N2).
  assert (L : is_live (started_worker w) w2 = true).
  { unfold is_live. rewrite W2, W1. cbn [existsb].
    replace (Worker_eqb (started_worker w) (started_worker w)) with true
      by (symmetry; now apply Worker_eqb_eq).
    reflexivity. }
  destruct (onWorkerFinished_identified (started_worker w) now w2)
    as (w3 & H3 & _ & _ & W3 & D3 & N3 & _).
  pose proof (onWorkerFinished_objects_ok _ _ _ _ O2 L H3) as O3.
  exists w3. unfold bind. rewrite H1, H2.
  change (dispatch (started_worker w) now sig_finished w2)
    with (onWorkerFinished (Some (started_worker w)) now w2).
  rewrite H3. cbn [ret]. split; [reflexivity|].
  split; [|split; [|split; [|exact O3]]].
  2: { rewrite D3, D2, D1. reflexivity. }
  2: { rewrite N3, N2, N1. reflexivity. }
  rewrite W3, W2, W1. cbn [filter].
  replace (Worker_eqb (started_worker w) (started_worker w)) with true
    by (symmetry; now apply Worker_eqb_eq).
  cbn [negb]. apply filter_keeps_all. intros x Hx.
  apply negb_true_iff. destruct (Worker_eqb x (started_worker w)) eqn:E; [|reflexivity].
  apply Worker_eqb_eq in E. subst x.
  destruct O as (B & _). rewrite Forall_forall in B. specialize (B _ Hx).
  cbn [started_worker wid wthread] in B. lia.
Qed.

Lemma World_new_objects_ok (p : PreferencesManager) : objects_ok (World_new p).
Proof. unfold objects_ok. cbn. repeat split; constructor. Qed.

Lemma one_check_restores_workers_witness :
  exists w',
    one_check (Failed "timeout") 5000 (World_new first_launch_prefs) = Ok tt w' /\
    workers w' = [] /\
    deferred w' = [0%nat].
Proof.
  destruct (one_check_restores_workers (Failed "timeout") 5000
              (World_new first_launch_prefs)
              (World_new_objects_ok first_launch_prefs))
    as (w' & H & W & D & _).
  exists w'. split; [exact H|]. split; [exact W | exact D].
Defined.

(** ** The schedule *)

(** X7. When the recorded last check is not in the future, the delay to the next
    check lies between one second and 24 hours, so it is the same number as an
    [int]. *)
Theorem delay_at_most_a_day (now : Z) (d : QDateTime) :
  in_range now ->
  (forall t, d = Some t -> in_range t /\ t <= now) ->
  1000 <= msSecsToNextCheck now d <= 86400000 /\
  to_int (msSecsToNextCheck now d) = msSecsToNextCheck now d.
Proof.
  intros Hn Hd.
  assert (B : 1000 <= msSecsToNextCheck now d <= 86400000).
  { destruct d as [t|].
    - destruct (Hd t eq_refl) as (Ht & Le).
      rewrite msSecsToNextCheck_in_range by assumption. lia.
    - rewrite msSecsToNextCheck_null. lia. }
  split; [exact B|]. apply to_int_id.
  assert (E : 2 ^ 31 = 2147483648) by reflexivity. lia.
Qed.

Lemma delay_at_most_a_day_witness :
  msSecsToNextCheck 3600000 (Some 0) = 82800000 /\
  1000 <= msSecsToNextCheck 3600000 (Some 0) <= 86400000 /\
  to_int (msSecsToNextCheck 3600000 (Some 0)) = msSecsToNextCheck 3600000 (Some 0).
Proof.
  split; [reflexivity|].
  apply (delay_at_most_a_day 3600000 (Some 0)).
  - unfold in_range. lia.
  - intros t E. injection E as <-. unfold in_range. lia.
Defined.

(** X8. Switching the preference off and on again after a check does not move the
    next check: the delay with which the timer is started at the time of
    switching on, which is not before the completion, is what is left of the
    24 hours since the completion, and one second once they are over. *)
Theorem reenable_keeps_due_time (wk : Worker) (t t_off now : Z) (w : World) :
  in_range t -> in_range now -> t <= now ->
  exists w',
    (onWorkerFinished (Some wk) t ;;
     onAutoCheckForUpdateChanged false t_off ;;
     onAutoCheckForUpdateChanged true now) w = Ok tt w' /\
    isActive (timer_ w') = true /\
    interval (timer_ w') = Z.max 1000 (t + 86400000 - now) /\
    (now + 1000 <= t + 86400000 -> now + interval (timer_ w') = t + 86400000).
Proof.
  intros Ht Hn Le. run_handlers. eexists. split; [reflexivity|]. simpl_world.
  split; [reflexivity|].
  assert (E : 2 ^ 31 = 2147483648) by reflexivity.
  destruct (narrowed_delay_when_it_fits now t Hn Ht) as (-> & _); [lia|].
  split; [reflexivity | lia].
Qed.

Lemma reenable_keeps_due_time_witness :
  exists w',
    (onWorkerFinished (Some {| wid := 1; wthread := 0 |}) 2000 ;;
     onAutoCheckForUpdateChanged false 5000 ;;
     onAutoCheckForUpdateChanged true 9000) (World_new first_launch_prefs)
      = Ok tt w' /\
    9000 + interval (timer_ w') = 2000 + 86400000.
Proof.
  destruct (reenable_keeps_due_time {| wid := 1; wthread := 0 |} 2000 5000 9000
              (World_new first_launch_prefs))
    as (w' & H & _ & _ & D);
    [unfold in_range; lia | unfold in_range; lia | lia |].
  exists w'. split; [exact H|]. apply D. lia.
Defined.

(** ** Deliveries of the preference *)

(** X9. Deliveries of the preference, however many, do nothing but stop and start
    the timer: they return normally, leave the preferences, the workers and
    the allocated objects alone, keep the timer single-shot or not as it was,
    and emit no notification. *)
Theorem deliver_changes_only_moves_timer (l : list (bool * Z)) (w : World) :
  exists w' events,
    deliver_changes l w = Ok tt w' /\
    prefs w' = prefs w /\
    workers w' = workers w /\
    deferred w' = deferred w /\
    next_obj w' = next_obj w /\
    singleShot (timer_ w') = singleShot (timer_ w) /\
    trace w' = trace w ++ events /\
    forallb is_timer_event events = true.
Proof.
  revert w. induction l as [|[enabled now] l IH]; intros w.
  - exists w, []. cbn [deliver_changes ret]. rewrite app_nil_r. repeat split.
  - cbn [deliver_changes]. unfold bind.
    destruct enabled.
    + rewrite onAutoCheckForUpdateChanged_enabled.
      match goal with |- context [deliver_changes l ?x] =>
        destruct (IH x) as (w' & ev & H & P & W & D & N & S & T & F) end.
      revert P W D N S T. simpl_world. intros P W D N S T.
      exists w', ([TimerStop; TimerStart (to_int (msSecsToNextCheck now (lastUpdateCheckDateTime (prefs w))))] ++ ev).
      rewrite H. repeat split; try assumption.
      rewrite T. now rewrite <- !app_assoc.
    + rewrite onAutoCheckForUpdateChanged_disabled.
      match goal with |- context [deliver_changes l ?x] =>
        destruct (IH x) as (w' & ev & H & P & W & D & N & S & T & F) end.
      revert P W D N S T. simpl_world. intros P W D N S T.
      exists w', ([TimerStop] ++ ev).
      rewrite H. repeat split; try assumption.
      rewrite T. now rewrite <- !app_assoc.
Qed.

Lemma deliver_changes_keeps (l : list (bool * Z)) (w : World) :
  exists w',
    deliver_changes l w = Ok tt w' /\
    prefs w' = prefs w /\
    singleShot (timer_ w') = singleShot (timer_ w).
Proof.
  revert w. induction l as [|[enabled now] l IH]; intros w.
  - exists w. repeat split.
  - cbn [deliver_changes]. unfold bind.
    destruct enabled;
      [rewrite onAutoCheckForUpdateChanged_enabled
      |rewrite onAutoCheckForUpdateChanged_disabled];
      match goal with |- context [deliver_changes l ?x] =>
        destruct (IH x) as (w' & H & P & S) end;
      revert P S; simpl_world; intros P S;
      exists w'; rewrite H; repeat split; assumption.
Qed.

(** X10. After any deliveries that end with "enabled", the timer is exactly what
    that last delivery alone sets: active, with the delay computed at its time
    from the stored last check and narrowed to the [int] the timer takes; the
    earlier deliveries leave nothing behind. *)
Theorem last_delivery_decides_timer
    (before : list (bool * Z)) (now : Z) (w : World) :
  exists w',
    deliver_changes (before ++ [(true, now)]) w = Ok tt w' /\
    timer_ w' =
      {| singleShot := singleShot (timer_ w); isActive := true;
         interval := to_int (msSecsToNextCheck now (lastUpdateCheckDateTime (prefs w))) |}.
Proof.
  rewrite deliver_changes_app. unfold bind.
  destruct (deliver_changes_keeps before w) as (w1 & -> & P & S).
  cbn [deliver_changes]. unfold bind.
  rewrite onAutoCheckForUpdateChanged_enabled. cbn [ret].
  eexists. split; [reflexivity|]. simpl_world. now rewrite P, S.
Qed.

(** ** Runs driven by the timer alone *)

Lemma run_invariant_on (Q : Input -> bool) (P : World -> Prop) :
  (forall now i w w',
     P w -> Q i = true -> enabled_input w i = true ->
     handle now i w = Ok tt w' -> P w') ->
  forall l w w',
    forallb (fun x => Q (snd x)) l = true -> P w -> run l w = Some w' -> P w'.
Proof.
  intros Step. induction l as [|[now i] l IH]; intros w w' Ql Pw H; cbn [run] in H.
  - now injection H as <-.
  - cbn [forallb snd] in Ql. apply andb_true_iff in Ql. destruct Ql as (Qi & Ql).
    destruct (enabled_input w i) eqn:En; [|discriminate H].
    destruct (handle now i w) as [[] w1|msg w1] eqn:Hh; [|discriminate H].
    apply (IH w1 w'); [exact Ql | | exact H]. now apply (Step now i w w1).
Qed.

Lemma filter_singleton_gone (wk : Worker) :
  filter (fun x => negb (Worker_eqb x wk)) [wk] = [].
Proof.
  cbn [filter].
  replace (Worker_eqb wk wk) with true by (symmetry; now apply Worker_eqb_eq).
  reflexivity.
Qed.

(** X5. As long as nothing but the timer and the workers drive the manager (no
    call of [checkForUpdate] from outside, no change of the preference), at
    most one worker is live at any time, and while the timer is active none
    is: the timer never starts a check on top of another. *)
Theorem timer_driven_checks_do_not_overlap (p : PreferencesManager) (now : Z)
    (l : list (Z * Input)) (w : World) :
  launch p now l = Some w ->
  forallb (fun x => timer_driven (snd x)) l = true ->
  (List.length (workers w) <= 1)%nat /\
  (isActive (timer_ w) = true -> workers w = []).
Proof.
  intros H Q. unfold launch in H.
  destruct (UpdateManager_ctor now (World_new p)) as [[] w0|msg w0] eqn:C;
    [|discriminate H].
  refine (run_invariant_on timer_driven
            (fun w => (List.length (workers w) <= 1)%nat /\
                      (isActive (timer_ w) = true -> workers w = []))
            _ l w0 w Q _ H).
  - clear. intros now i w w' (Le & Idle) Qi En H.
    destruct i as [ | | enabled | wk sig]; try discriminate Qi; cbn [handle] in H.
    + cbn [enabled_input] in En. specialize (Idle En).
      run_handlers_in H. injection H as <-. simpl_world.
      rewrite Idle. split; [cbn; lia | discriminate].
    + cbn [enabled_input] in En. apply is_live_In in En.
      assert (W : workers w = [wk]).
      { destruct (workers w) as [|a [|b r]]; [destruct En | | cbn in Le; lia].
        destruct En as [->|[]]. reflexivity. }
      destruct sig as [ | [info|] | | error]; cbn [dispatch] in H;
        run_handlers_in H; try discriminate H; injection H as <-; simpl_world.
      * rewrite W, filter_singleton_gone. split; [cbn; lia | reflexivity].
      * split; [exact Le | exact Idle].
      * split; [exact Le | exact Idle].
      * split; [exact Le | exact Idle].
  - destruct (ctor_world p now w0 C) as (W & _). rewrite W.
    split; [cbn; lia | reflexivity].
Qed.

Lemma timer_driven_checks_do_not_overlap_witness :
  exists w,
    launch first_launch_prefs 0 quiet_two_days = Some w /\
    List.length (workers w) = 1%nat /\
    isActive (timer_ w) = false.
Proof.
  eexists. split; [vm_compute; reflexivity|].
  assert (E : launch first_launch_prefs 0 quiet_two_days = Some _)
    by (vm_compute; reflexivity).
  destruct (timer_driven_checks_do_not_overlap
              first_launch_prefs 0 quiet_two_days _ E eq_refl) as (Le & Idle).
  split; [reflexivity|].
  destruct (isActive (timer_ _)) eqn:A; [|reflexivity].
  specialize (Idle eq_refl). discriminate Idle.
Defined.

(** ** Order of the notifications of one check *)




